(** * blinkbo: the tile / coordinate / sidecar bookkeeping of [stack.py]

    A shallow embedding of [src/stack.py] (Python 2): the section list
    built by the [__main__] block, the [DisplayManager] methods that move
    marks between the viewer overlay and the [.coo] sidecar files, and the
    key-event loop.  Python floats are IEEE binary64 values ([PrimFloat]),
    Python ints are [Z], [str] is [string], the two dictionaries of
    [DisplayManager] are [gmap]s keyed by frame number. *)

From Stdlib Require Import ZArith List String Ascii Lia Bool.
From Stdlib Require Import PrimFloat FloatOps SpecFloat.
From stdpp Require Import gmap strings.
Import ListNotations.
Open Scope Z_scope.

(** ** Exceptions and results *)

Inductive exn : Type :=
| TypeError | IndexError | ValueError | KeyError
| IOError | OSError | OverflowError | AttributeError.

Inductive result (A : Type) : Type :=
| Ok (a : A)
| Raise (e : exn).
Arguments Ok {A} a.
Arguments Raise {A} e.

Definition raises {A} (r : result A) : Prop := exists e, r = Raise e.

(** ** Python builtins used by the [__main__] block *)

Module Py.

(** [len(range(start, stop, step))], CPython's [get_len_of_range]. *)
Definition range_len (start stop step : Z) : Z :=
  if 0 <? step then
    if start <? stop then 1 + (stop - 1 - start) / step else 0
  else
    if stop <? start then 1 + (start - 1 - stop) / (- step) else 0.

Fixpoint range_from (n : nat) (start step : Z) : list Z :=
  match n with
  | O => []
  | S k => start :: range_from k (start + step) step
  end.

(** [range(start, stop, step)]; a zero step is a [ValueError]. *)
Definition range (start stop step : Z) : result (list Z) :=
  if step =? 0 then Raise ValueError
  else Ok (range_from (Z.to_nat (range_len start stop step)) start step).

(** [l[i]] on a list: negative indices count from the end, an index out
    of range is an [IndexError]. *)
Definition index {A} (l : list A) (i : Z) : result A :=
  let n := Z.of_nat (length l) in
  let j := if i <? 0 then i + n else i in
  if (j <? 0) || (n <=? j) then Raise IndexError
  else match nth_error l (Z.to_nat j) with
       | Some a => Ok a
       | None => Raise IndexError
       end.

End Py.

(** ** Sections (tiles) *)

(** A section is the 4-tuple [(x1, x1+width, y1, y1+width)] appended at
    line 220; [section[0]] .. [section[3]] are its components in order. *)
Definition tile : Type := (Z * Z * Z * Z)%type.

Definition tile_get (t : tile) (i : nat) : result Z :=
  let '(a, b, c, d) := t in
  match i with
  | 0%nat => Ok a | 1%nat => Ok b | 2%nat => Ok c | 3%nat => Ok d
  | _ => Raise IndexError
  end.

(** The pixel [(x, y)] lies in the cutout [[t0:t1,t2:t3]] the viewer is
    asked for (1-based, both bounds included). *)
Definition inside (x y : Z) (t : tile) : Prop :=
  let '(a, b, c, d) := t in a <= x <= b /\ c <= y <= d.

(** Lines 217-220: the nested loop appending one tuple per [(x1, y1)]. *)
Definition append_row (width x1 : Z) (dys : list Z) (sections : list tile)
  : list tile :=
  fold_left (fun acc y1 => acc ++ [(x1, x1 + width, y1, y1 + width)])
            dys sections.

Definition append_rows (width : Z) (dxs dys : list Z) (sections : list tile)
  : list tile :=
  fold_left (fun acc x1 => append_row width x1 dys acc) dxs sections.

(** Lines 214-220, with the image limits and the edge [width] (128 in the
    program) as arguments. *)
Definition make_sections (limits : Z * Z) (width : Z) : result (list tile) :=
  match Py.range 1 (fst limits + 1) width with
  | Raise e => Raise e
  | Ok dxs =>
    match Py.range 1 (snd limits + 1) width with
    | Raise e => Raise e
    | Ok dys => Ok (append_rows width dxs dys [])
    end
  end.

(** [ceil(a / b)] for positive [b]. *)
Definition ceil_div (a b : Z) : Z := (a + b - 1) / b.

(** ** Python [str] operations *)

Module Str.

Local Open Scope string_scope.
Local Open Scope Z_scope.

(** The six bytes [str.split()] and [str.strip()] treat as white space. *)
Definition is_space (c : ascii) : bool :=
  let n := nat_of_ascii c in
  (n =? 32)%nat || ((9 <=? n)%nat && (n <=? 13)%nat).

Definition flush (cur : string) (acc : list string) : list string :=
  if String.eqb cur "" then acc else acc ++ [cur].

(** [s.split()]: the maximal runs of non-space bytes, in order. *)
Fixpoint split_aux (s cur : string) (acc : list string) : list string :=
  match s with
  | EmptyString => flush cur acc
  | String c s' =>
    if is_space c then split_aux s' "" (flush cur acc)
    else split_aux s' (cur ++ String c "") acc
  end.

Definition split (s : string) : list string := split_aux s "" [].

(** Iterating over a file opened for reading, and [readlines()]: the
    content cut after each newline, the newline kept. *)
Fixpoint lines_aux (s cur : string) : list string :=
  match s with
  | EmptyString => if String.eqb cur "" then [] else [cur]
  | String c s' =>
    if Ascii.eqb c "010"%char then (cur ++ String c "") :: lines_aux s' ""
    else lines_aux s' (cur ++ String c "")
  end.

Definition readlines (content : string) : list string := lines_aux content "".

(** [needle in hay]. *)
Fixpoint contains (needle hay : string) : bool :=
  String.prefix needle hay ||
  match hay with
  | EmptyString => false
  | String _ hay' => contains needle hay'
  end.

(** [s.rfind(c)]: the last position of the byte, or -1. *)
Fixpoint rfind_aux (c : ascii) (s : string) (pos last : Z) : Z :=
  match s with
  | EmptyString => last
  | String d s' => rfind_aux c s' (pos + 1) (if Ascii.eqb c d then pos else last)
  end.

Definition rfind (c : ascii) (s : string) : Z := rfind_aux c s 0 (-1).

Definition get (s : string) (i : Z) : option ascii :=
  if i <? 0 then None else String.get (Z.to_nat i) s.

(** [genericpath._splitext] with [sep = '/'], no [altsep], [extsep = '.']:
    the extension starts at the last dot of the last path component,
    unless that component has only leading dots before it. *)
Fixpoint splitext_scan (p : string) (fuel : nat) (filenameIndex dotIndex : Z)
  : bool :=
  match fuel with
  | O => false
  | S k =>
    if filenameIndex <? dotIndex then
      match get p filenameIndex with
      | Some c => if Ascii.eqb c "."%char then
                    splitext_scan p k (filenameIndex + 1) dotIndex
                  else true
      | None => false
      end
    else false
  end.

Definition splitext (p : string) : string * string :=
  let sepIndex := rfind "/"%char p in
  let dotIndex := rfind "."%char p in
  if (sepIndex <? dotIndex)
     && splitext_scan p (String.length p) (sepIndex + 1) dotIndex then
    (String.substring 0 (Z.to_nat dotIndex) p,
     String.substring (Z.to_nat dotIndex)
                      (String.length p - Z.to_nat dotIndex) p)
  else (p, "").

Definition lower (c : ascii) : ascii :=
  let n := nat_of_ascii c in
  if (65 <=? n)%nat && (n <=? 90)%nat then ascii_of_nat (n + 32) else c.

Fixpoint lowercase (s : string) : string :=
  match s with
  | EmptyString => EmptyString
  | String c s' => String (lower c) (lowercase s')
  end.

(** [' ' * n]. *)
Fixpoint spaces (n : nat) : string :=
  match n with
  | O => ""
  | S k => String " "%char (spaces k)
  end.

(** Right alignment in a field of width [w], the default for numbers. *)
Definition rjust (w : nat) (s : string) : string :=
  spaces (w - String.length s) ++ s.

End Str.

(** ** Python [float] operations (IEEE binary64) *)

Module Flt.

Local Open Scope string_scope.
Local Open Scope Z_scope.

Definition nan : float := SF2Prim S754_nan.
Definition inf (neg : bool) : float := SF2Prim (S754_infinity neg).

(** The integer [z] rounded to the nearest double, ties to even. *)
Definition of_int_nearest (z : Z) : float :=
  SF2Prim (binary_normalize prec emax z 0 false).

(** The conversion of an int operand in mixed arithmetic; an int too
    large for a double is an [OverflowError]. *)
Definition of_int (z : Z) : result float :=
  let f := of_int_nearest z in
  if is_infinity f then Raise OverflowError else Ok f.

(** The double nearest to the rational [p / q] ([0 <= p], [0 < q]), ties
    to even, with the given sign: the quotient is taken with more than 53
    bits and a sticky bit, then rounded once. *)
Definition of_ratio (neg : bool) (p q : Z) : float :=
  if p =? 0 then SF2Prim (S754_zero neg)
  else
    let k := 57 + Z.log2 q - Z.log2 p in
    let num := if 0 <=? k then p * 2 ^ k else p in
    let den := if 0 <=? k then q else q * 2 ^ (- k) in
    let sticky := if num mod den =? 0 then 0 else 1 in
    let m := 2 * (num / den) + sticky in
    SF2Prim (binary_normalize prec emax (if neg then - m else m) (- k - 1) false).

Definition digit_of (c : ascii) : option Z :=
  let n := nat_of_ascii c in
  if (48 <=? n)%nat && (n <=? 57)%nat then Some (Z.of_nat n - 48) else None.

(** The longest prefix of decimal digits: its value on top of [acc], the
    number of digits read, and the rest of the string. *)
Fixpoint take_digits (s : string) (acc count : Z) : Z * Z * string :=
  match s with
  | EmptyString => (acc, count, s)
  | String c s' =>
    match digit_of c with
    | Some d => take_digits s' (10 * acc + d) (count + 1)
    | None => (acc, count, s)
    end
  end.

Definition take_sign (s : string) : bool * string :=
  match s with
  | String "-" s' => (true, s')
  | String "+" s' => (false, s')
  | _ => (false, s)
  end.

(** The optional exponent part; [None] when an exponent marker is not
    followed by digits, or when text remains after it. *)
Definition take_exponent (s : string) : option Z :=
  match s with
  | EmptyString => Some 0
  | String c s' =>
    if Ascii.eqb (Str.lower c) "e"%char then
      let '(neg, s1) := take_sign s' in
      let '(e, count, rest) := take_digits s1 0 0 in
      if (0 <? count) && String.eqb rest "" then Some (if neg then - e else e)
      else None
    else None
  end.

(** [float(s)] on a [str] without surrounding white space: an optional
    sign, then [inf], [infinity] or [nan] in any case, or a decimal
    numeral with an optional fraction and exponent; anything else is a
    [ValueError].  The value is the nearest double. *)
Definition parse (s : string) : result float :=
  let '(neg, s0) := take_sign s in
  let w := Str.lowercase s0 in
  if String.eqb w "inf" || String.eqb w "infinity" then Ok (inf neg)
  else if String.eqb w "nan" then Ok nan
  else
    let '(ip, icount, s1) := take_digits s0 0 0 in
    let '(mant, fcount, s2) :=
      match s1 with
      | String "." s1' => take_digits s1' ip 0
      | _ => (ip, 0, s1)
      end in
    if icount + fcount =? 0 then Raise ValueError
    else match take_exponent s2 with
         | None => Raise ValueError
         | Some e =>
           let e10 := e - fcount in
           Ok (if 0 <=? e10 then of_ratio neg (mant * 10 ^ e10) 1
               else of_ratio neg mant (10 ^ (- e10)))
         end.

(** [n / d] rounded to the nearest integer, ties to even. *)
Definition round_half_even (n d : Z) : Z :=
  let q := n / d in
  let r := n mod d in
  if 2 * r <? d then q
  else if d <? 2 * r then q + 1
  else if Z.even q then q else q + 1.

(** [m * 2^e * 100] rounded to an integer: the value in hundredths. *)
Definition hundredths (m : positive) (e : Z) : Z :=
  if 0 <=? e then Z.pos m * 2 ^ e * 100
  else round_half_even (Z.pos m * 100) (2 ^ (- e)).

Definition digit_char (d : Z) : ascii := ascii_of_nat (Z.to_nat d + 48).

Fixpoint decimal_aux (fuel : nat) (z : Z) (acc : string) : string :=
  match fuel with
  | O => acc
  | S k =>
    let acc' := String (digit_char (z mod 10)) acc in
    if z <? 10 then acc' else decimal_aux k (z / 10) acc'
  end.

(** The decimal numeral of [z >= 0]. *)
Definition decimal (z : Z) : string :=
  decimal_aux (S (Z.to_nat (Z.log2 z))) z "".

(** ['{:.2f}'.format(f)]: the exact value of [f] rounded to two decimals,
    ties to even; the sign is kept when the digits round to zero. *)
Definition fixed2 (f : float) : string :=
  match Prim2SF f with
  | S754_nan => "nan"
  | S754_infinity s => if s then "-inf" else "inf"
  | S754_zero s => (if s then "-" else "") ++ "0.00"
  | S754_finite s m e =>
    let h := hundredths m e in
    (if s then "-" else "") ++ decimal (h / 100) ++ "."
      ++ String (digit_char (h mod 100 / 10))
           (String (digit_char (h mod 10)) "")
  end.

(** ['{:12.2f}'.format(f)]. *)
Definition format_12_2f (f : float) : string := Str.rjust 12 (fixed2 f).

(** [f + z], [f - z], [z + f] for a float [f] and an int [z]. *)
Definition add_int (f : float) (z : Z) : result float :=
  match of_int z with Ok g => Ok (f + g)%float | Raise e => Raise e end.

Definition sub_int (f : float) (z : Z) : result float :=
  match of_int z with Ok g => Ok (f - g)%float | Raise e => Raise e end.

Definition int_add (z : Z) (f : float) : result float :=
  match of_int z with Ok g => Ok (g + f)%float | Raise e => Raise e end.

(** [v ** 2]: C's [pow(v, 2.0)], taken as the correctly rounded square; a
    finite [v] whose square overflows is an [OverflowError]. *)
Definition pow2 (v : float) : result float :=
  let r := (v * v)%float in
  if is_infinity r && negb (is_infinity v) then Raise OverflowError
  else Ok r.

(** [math.sqrt]: a negative argument is a [ValueError]. *)
Definition sqrt (v : float) : result float :=
  if (v <? 0)%float then Raise ValueError else Ok (PrimFloat.sqrt v).

End Flt.

(** ** The viewer (ds9) as seen through [display.set] / [display.get]

    The viewer is an external program; the model keeps what the program
    reads back from it.  Assumptions: [frame new] numbers the new frame
    one above the highest existing one (from 1 after [frame delete all],
    as [file_names[d.frame_number - 1]] at line 263 expects) and makes it
    current; the current frame does not change otherwise (the cycling of
    frames while blink is on is not modelled); markers are handed back by
    [get('regions')] with the coordinates they were drawn at, in drawing
    order.  Cosmetic commands (scale, cmap, view, zoom, blink interval)
    leave the modelled state alone. *)

Inductive region : Type :=
| Circle (x y : float) (radius : Z) (colour : string)
| Text (x y : float) (text : string).

Record viewer : Type := mkViewer {
  frames : list Z;                  (* existing frame numbers *)
  frameno : Z;                      (* current frame, 0 when there is none *)
  loaded : gmap Z string;           (* file expression shown in each frame *)
  overlay : gmap Z (list region);   (* regions drawn on each frame *)
  blink_on : bool
}.

Module Viewer.

Local Open Scope string_scope.
Local Open Scope list_scope.

Definition empty : viewer := mkViewer [] 0 ∅ ∅ false.

Definition frame_new (v : viewer) : viewer :=
  let n := 1 + fold_right Z.max 0 (frames v) in
  mkViewer (frames v ++ [n]) n (loaded v) (overlay v) (blink_on v).

Definition frame_delete_all (v : viewer) : viewer :=
  mkViewer [] 0 ∅ ∅ (blink_on v).

Definition file (expr : string) (v : viewer) : viewer :=
  mkViewer (frames v) (frameno v) (<[frameno v := expr]> (loaded v))
           (overlay v) (blink_on v).

Definition current_regions (v : viewer) : list region :=
  default [] (overlay v !! frameno v).

Definition add_region (r : region) (v : viewer) : viewer :=
  mkViewer (frames v) (frameno v) (loaded v)
           (<[frameno v := current_regions v ++ [r]]> (overlay v))
           (blink_on v).

Definition region_delete_all (v : viewer) : viewer :=
  mkViewer (frames v) (frameno v) (loaded v)
           (<[frameno v := []]> (overlay v)) (blink_on v).

(** [blink <word>]: the words the viewer reads as "yes". *)
Definition truthy (word : string) : bool :=
  let w := Str.lowercase word in
  String.eqb w "yes" || String.eqb w "on" || String.eqb w "true"
  || String.eqb w "1".

Definition set_blink (word : string) (v : viewer) : viewer :=
  mkViewer (frames v) (frameno v) (loaded v) (overlay v) (truthy word).

(** [get('blink')]. *)
Definition get_blink (v : viewer) : string :=
  if blink_on v then "yes" else "no".

End Viewer.

(** ** Program state and the state-and-exception monad *)

(** What [self.sections] holds for a frame: [None] (the default of
    [load_image]), a 4-tuple, or a [str] (the guard at lines 98 and 119
    compares against the string ["None"]). *)
Inductive pysection : Type :=
| SecNone
| SecStr (s : string)
| SecTuple (t : tile).

Inductive output : Type :=
| Printed (line : string)      (* a [print] statement *)
| HelpText.                    (* [parser.print_help()] *)

Record state : Type := mkState {
  display : viewer;                 (* self.display *)
  filenames : gmap Z string;        (* self.filenames *)
  sections : gmap Z pysection;      (* self.sections *)
  disk : gmap string string;        (* files by path, with their content *)
  stdout : list output;
  idx : Z                           (* the tile index of the main loop *)
}.

Definition M (A : Type) : Type := state -> result A * state.

Definition ret {A} (a : A) : M A := fun s => (Ok a, s).

Definition bind {A B} (c : M A) (k : A -> M B) : M B :=
  fun s => match c s with
           | (Ok a, s') => k a s'
           | (Raise e, s') => (Raise e, s')
           end.

Definition throw {A} (e : exn) : M A := fun s => (Raise e, s).

Definition lift {A} (r : result A) : M A := fun s => (r, s).

Definition gets {A} (f : state -> A) : M A := fun s => (Ok (f s), s).

Definition modify (f : state -> state) : M unit := fun s => (Ok tt, f s).

Notation "'let*' x ':=' c 'in' k" := (bind c (fun x => k))
  (at level 10, x pattern, c at level 100, k at level 200).
Notation "c >> k" := (bind c (fun _ => k))
  (at level 60, right associativity).

(** A [for] loop whose body may raise. *)
Fixpoint for_each {A} (l : list A) (body : A -> M unit) : M unit :=
  match l with
  | [] => ret tt
  | a :: l' => body a >> for_each l' body
  end.

Definition set_display (f : viewer -> viewer) (s : state) : state :=
  mkState (f (display s)) (filenames s) (sections s) (disk s) (stdout s) (idx s).

Definition set_filenames (f : gmap Z string -> gmap Z string) (s : state)
  : state :=
  mkState (display s) (f (filenames s)) (sections s) (disk s) (stdout s) (idx s).

Definition set_sections (f : gmap Z pysection -> gmap Z pysection) (s : state)
  : state :=
  mkState (display s) (filenames s) (f (sections s)) (disk s) (stdout s) (idx s).

Definition set_disk (f : gmap string string -> gmap string string) (s : state)
  : state :=
  mkState (display s) (filenames s) (sections s) (f (disk s)) (stdout s) (idx s).

Definition set_stdout (f : list output -> list output) (s : state) : state :=
  mkState (display s) (filenames s) (sections s) (disk s) (f (stdout s)) (idx s).

Definition set_idx (i : Z) (s : state) : state :=
  mkState (display s) (filenames s) (sections s) (disk s) (stdout s) i.

(** ** Files *)

Module File.

(** [os.access(path, os.F_OK)]. *)
Definition access (path : string) : M bool :=
  gets (fun s => bool_decide (is_Some (disk s !! path))).

(** [open(path, 'r')] and reading the whole content; an [IOError] when the
    file does not exist. *)
Definition open_read (path : string) : M string :=
  let* found := gets (fun s => disk s !! path) in
  match found with
  | Some content => ret content
  | None => throw IOError
  end.

(** [open(path, 'w')]: the file is created, or emptied. *)
Definition open_write (path : string) : M unit :=
  modify (set_disk (<[path := ""%string]>)).

(** [f.write(text)] on a file opened at [path]. *)
Definition write (path text : string) : M unit :=
  modify (set_disk (fun d => <[path := (default "" (d !! path) ++ text)%string]> d)).

(** [os.unlink(path)]; an [OSError] when the file does not exist. *)
Definition unlink (path : string) : M unit :=
  let* found := gets (fun s => disk s !! path) in
  match found with
  | Some _ => modify (set_disk (delete path))
  | None => throw OSError
  end.

End File.

(** ** [class DisplayManager] *)

Module DisplayManager.

Local Open Scope list_scope.
Local Open Scope string_scope.
Local Open Scope Z_scope.

Definition reg_extension : string := "coo".

Definition newline : string := String "010"%char "".

(** [self.display.set(...)] for a command that changes the modelled
    viewer state, and for one that does not. *)
Definition display_set (f : viewer -> viewer) : M unit :=
  modify (set_display f).

Definition cosmetic (command : string) : M unit := ret tt.

(** [d[k]] on a dictionary: a missing key is a [KeyError]. *)
Definition dict_get {V} (d : state -> gmap Z V) (k : Z) : M V :=
  let* found := gets (fun s => d s !! k) in
  match found with
  | Some v => ret v
  | None => throw KeyError
  end.

(** Lines 84-86. *)
Definition frame_number : M Z := gets (fun s => frameno (display s)).

(** Lines 88-91. *)
Definition region_filename : M string :=
  let* idx := frame_number in
  let* name := dict_get filenames idx in
  ret (fst (Str.splitext name) ++ "." ++ reg_extension).

(** Lines 203-204; every call in the program uses the defaults
    [radius=10, colour='red']. *)
Definition mark (x y : float) (radius : Z) (colour : string) : M unit :=
  display_set (Viewer.add_region (Circle x y radius colour)).

(** [section[i]] as an operand of arithmetic: a component of a tuple;
    [None] is not subscriptable ([TypeError]); a [str] gives a
    one-character [str], on which the arithmetic is a [TypeError], or an
    [IndexError] past its end. *)
Definition section_int (section : pysection) (i : nat) : result Z :=
  match section with
  | SecTuple t => tile_get t i
  | SecNone => Raise TypeError
  | SecStr s => if (i <? String.length s)%nat then Raise TypeError
                else Raise IndexError
  end.

(** Lines 98-99 and 119-120: [if section == "None": section = (1,0,1,0)]. *)
Definition sentinel (section : pysection) : pysection :=
  match section with
  | SecStr s => if String.eqb s "None" then SecTuple (1, 0, 1, 0) else section
  | _ => section
  end.

(** Lines 101-104, the body of the loop of [load_regions]. *)
Definition load_region_line (section : pysection) (line : string) : M unit :=
  match Str.split line with
  | [x; y] =>
    let* fx := lift (Flt.parse x) in
    let* s0 := lift (section_int section 0) in
    let* x0 := lift (Flt.sub_int fx s0) in
    let x := (x0 + 1)%float in
    let* fy := lift (Flt.parse y) in
    let* s2 := lift (section_int section 2) in
    let* y0 := lift (Flt.sub_int fy s2) in
    let y := (y0 + 1)%float in
    mark x y 10 "red"
  | _ => throw ValueError
  end.

(** Lines 93-104. *)
Definition load_regions : M unit :=
  let* path := region_filename in
  let* present := File.access path in
  if negb present then ret tt
  else
    let* n := frame_number in
    let* section := dict_get sections n in
    let section := sentinel section in
    let* path := region_filename in
    let* content := File.open_read path in
    for_each (Str.readlines content) (load_region_line section).

(** Lines 109-113 on the lines the viewer hands back, one per region:
    ['circle' in line] holds for a circle and for a label whose text has
    the word in it. *)
Definition has_circle (r : region) : bool :=
  match r with
  | Circle _ _ _ _ => true
  | Text _ _ text => Str.contains "circle" text
  end.

(** The [re.match] of line 112 and the two [float]s of its first groups:
    a line that does not start with a circle gives [None], and
    [.groups()] on it is an [AttributeError]. *)
Definition match_circle (r : region) : result (float * float) :=
  match r with
  | Circle x y _ _ => Ok (x, y)
  | Text _ _ _ => Raise AttributeError
  end.

Fixpoint parse_regions (rs : list region) : result (list (float * float)) :=
  match rs with
  | [] => Ok []
  | r :: rs' =>
    if has_circle r then
      match match_circle r with
      | Ok p =>
        match parse_regions rs' with
        | Ok l => Ok (p :: l)
        | Raise e => Raise e
        end
      | Raise e => Raise e
      end
    else parse_regions rs'
  end.

(** Lines 106-114. *)
Definition regions : M (list (float * float)) :=
  let* rs := gets (fun s => Viewer.current_regions (display s)) in
  lift (parse_regions rs).

(** Lines 122-124, the body of the loop of [save_regions]. *)
Definition save_region (path : string) (section : pysection)
           (region : float * float) : M unit :=
  let* s0 := lift (section_int section 0) in
  let* x0 := lift (Flt.add_int (fst region) s0) in
  let* x := lift (Flt.sub_int x0 1) in
  let* s1 := lift (section_int section 1) in
  let* y0 := lift (Flt.add_int (snd region) s1) in
  let* y := lift (Flt.sub_int y0 1) in
  File.write path (Flt.format_12_2f x ++ " " ++ Flt.format_12_2f y ++ newline).

(** Lines 116-125. *)
Definition save_regions : M unit :=
  let* path := region_filename in
  File.open_write path >>
  let* n := frame_number in
  let* section := dict_get sections n in
  let section := sentinel section in
  let* rs := regions in
  for_each rs (save_region path section).

(** Lines 132-137, the body of the loop of [delete_region]. *)
Definition delete_region_line (x y : float) (line : string) : M unit :=
  let v := Str.split line in
  let* v0 := lift (Py.index v 0) in
  let* rx := lift (Flt.parse v0) in
  let* v1 := lift (Py.index v 1) in
  let* ry := lift (Flt.parse v1) in
  let* dx2 := lift (Flt.pow2 (rx - x)%float) in
  let* dy2 := lift (Flt.pow2 (ry - y)%float) in
  let* dist := lift (Flt.sqrt (dx2 + dy2)%float) in
  if (dist <? 1)%float then ret tt else mark rx ry 10 "red".

(** Lines 127-138. *)
Definition delete_region (x y : float) : M unit :=
  let* path := region_filename in
  let* content := File.open_read path in
  let lines := Str.readlines content in
  let* path := region_filename in
  File.unlink path >>
  display_set Viewer.region_delete_all >>
  for_each lines (delete_region_line x y) >>
  save_regions.

(** [str(z)] for an int. *)
Definition int_str (z : Z) : string :=
  if z <? 0 then "-" ++ Flt.decimal (- z) else Flt.decimal z.

(** Lines 147-150. *)
Definition cutout_of (section : pysection) : result string :=
  match section with
  | SecNone => Ok "[*,*]"
  | SecTuple (a, b, c, d) =>
    Ok ("[" ++ int_str a ++ ":" ++ int_str b ++ "," ++ int_str c ++ ":"
            ++ int_str d ++ "]")
  | SecStr s =>
    match s with
    | String a (String b (String c (String d _))) =>
      Ok ("[" ++ String a ":" ++ String b "," ++ String c ":" ++ String d "]")
    | _ => Raise IndexError
    end
  end.

(** Lines 159-161; [%f] converts the int [x] to a float. *)
Definition label (x : Z) (y : float) (text : string) : M unit :=
  let* xf := lift (Flt.of_int x) in
  display_set (Viewer.add_region (Text xf y text)).

(** Lines 143-157. *)
Definition load_image (image_name : string) (section : pysection)
           (frameno : option Z) : M unit :=
  match frameno with
  | None => display_set Viewer.frame_new
  | Some _ => ret tt
  end >>
  cosmetic "cmap invert yes" >>
  let* cutout := lift (cutout_of section) in
  display_set (Viewer.file (image_name ++ cutout)) >>
  let* n := frame_number in
  modify (set_filenames (<[n := image_name]>)) >>
  let* n := frame_number in
  modify (set_sections (<[n := section]>)) >>
  cosmetic "zoom to fit" >>
  let* s1 := lift (section_int section 1) in
  let x := s1 - 10 in
  let* s2 := lift (section_int section 2) in
  let* s3 := lift (section_int section 3) in
  let* ysum := lift (Flt.of_int (s2 + s3)) in
  let y := (ysum / 2)%float in
  label x y (image_name ++ cutout) >>
  load_regions.

(** Lines 193-195. *)
Definition blinking : M bool :=
  gets (fun s => String.eqb (Viewer.get_blink (display s)) "yes").

(** Lines 197-198: the given setting when it is a non-empty string,
    otherwise the opposite of the current blink state. *)
Definition blink (setting : option string) : M unit :=
  let toggled := let* b := blinking in ret (if b then "no" else "yes") in
  let* word :=
    match setting with
    | Some w => if String.eqb w "" then toggled else ret w
    | None => toggled
    end in
  display_set (Viewer.set_blink word).

(** Lines 163-176; [stack.file_names] is the argument [file_names]. *)
Definition load_images (file_names : list string) (section : pysection)
  : M unit :=
  let* was_blinking := blinking in
  (if was_blinking then blink (Some "no") else ret tt) >>
  for_each file_names (fun file_name => load_image file_name section None) >>
  (if was_blinking then blink (Some "yes") else ret tt).

(** Lines 200-201. *)
Definition clear : M unit := display_set Viewer.frame_delete_all.

(** Lines 74-82. *)
Definition setup : M unit :=
  cosmetic "scale zscale" >>
  cosmetic "cmap invert yes" >>
  cosmetic "blink interval 0.25" >>
  cosmetic "view info no" >>
  cosmetic "view magnifier no" >>
  cosmetic "view panner no" >>
  cosmetic "view buttons no" >>
  blink (Some "on").

(** Lines 67-72. *)
Definition init : M unit :=
  clear >>
  setup >>
  modify (set_filenames (fun _ => ∅)) >>
  modify (set_sections (fun _ => ∅)).

End DisplayManager.

(** ** The [__main__] block *)

(** What [d.imexam()] returns: the key pressed and the cursor position in
    the coordinates of the displayed cutout. *)
Record response : Type := mkResponse {
  key : string;
  resp_x : float;
  resp_y : float
}.

Inductive control : Type := Fallthrough | Continue | Break.

Module Main.

Import DisplayManager.
Local Open Scope list_scope.
Local Open Scope string_scope.
Local Open Scope Z_scope.

(** [print text]. *)
Definition print (text : string) : M unit :=
  modify (set_stdout (fun o => (o ++ [Printed text])%list)).

Definition print_help : M unit :=
  modify (set_stdout (fun o => (o ++ [HelpText])%list)).

(** One [if response.key == ...:] statement of the loop body, and the
    statements after it: they run unless the block ended the iteration
    with [continue] or the loop with [break]. *)
Definition when_key (response : response) (k : string) (body : M control)
  : M control :=
  if String.eqb (key response) k then body else ret Fallthrough.

Definition and_then (blk rest : M control) : M control :=
  let* c := blk in
  match c with
  | Fallthrough => rest
  | _ => ret c
  end.

(** [sections[idx][i] + v - 1] at lines 253-254 and 260-261. *)
Definition to_global (secs : list tile) (i : nat) (v : float) : M float :=
  let* n := gets idx in
  let* sec := lift (Py.index secs n) in
  let* s := lift (tile_get sec i) in
  let* g := lift (Flt.int_add s v) in
  lift (Flt.sub_int g 1).

(** [sections[idx]] as the [section=] argument of a load. *)
Definition current_section (secs : list tile) : M pysection :=
  let* n := gets idx in
  let* sec := lift (Py.index secs n) in
  ret (SecTuple sec).

(** Lines 231-269: one iteration of [while True], for the response the
    viewer returned. *)
Definition loop_body (secs : list tile) (file_names : list string)
           (response : response) : M control :=
  and_then (when_key response "n" (
    let* n := gets idx in
    modify (set_idx (Z.min (n + 1) (Z.of_nat (length secs) - 1))) >>
    clear >>
    let* section := current_section secs in
    load_images file_names section >>
    ret Fallthrough))
  (and_then (when_key response "p" (
    let* n := gets idx in
    modify (set_idx (Z.max (n - 1) 0)) >>
    clear >>
    let* section := current_section secs in
    load_images file_names section >>
    ret Fallthrough))
  (and_then (when_key response "b" (
    blink None >>
    ret Fallthrough))
  (and_then (when_key response "a" (
    let* b := blinking in
    if b then
      print "Toggle off blink (b) before marking." >>
      ret Continue
    else
      mark (resp_x response) (resp_y response) 10 "red" >>
      let* x := to_global secs 0 (resp_x response) in
      let* y := to_global secs 2 (resp_y response) in
      save_regions >>
      ret Fallthrough))
  (and_then (when_key response "d" (
    let* b := blinking in
    if b then
      print "Toggle off blink (b) before deleting a mark." >>
      ret Continue
    else
      let* x := to_global secs 0 (resp_x response) in
      let* y := to_global secs 2 (resp_y response) in
      delete_region x y >>
      let* n := frame_number in
      let* name := lift (Py.index file_names (n - 1)) in
      let* section := current_section secs in
      load_image name section None >>
      ret Fallthrough))
  (and_then (when_key response "question" (
    print_help >>
    ret Fallthrough))
  (when_key response "q" (
    blink (Some "no") >>
    ret Break))))))).

(** The loop over the responses the viewer returns, in order; [true] when
    the loop was left with [q], [false] when the responses ran out. *)
Fixpoint run (secs : list tile) (file_names : list string)
         (responses : list response) : M bool :=
  match responses with
  | [] => ret false
  | r :: rest =>
    let* c := loop_body secs file_names r in
    match c with
    | Break => ret true
    | _ => run secs file_names rest
    end
  end.

(** Lines 212-228: the sections of an image of the given limits, the
    display manager, and the first load. *)
Definition startup (limits : Z * Z) (file_names : list string)
  : M (list tile) :=
  let width := 128 in
  let* secs := lift (make_sections limits width) in
  init >>
  modify (set_idx 0) >>
  clear >>
  let* section := current_section secs in
  load_images file_names section >>
  ret secs.

End Main.

(** The state the program starts in on the given files. *)
Definition initial (files : gmap string string) : state :=
  mkState Viewer.empty ∅ ∅ files [] 0.

(** ** [DisplayManager.imexam] and [class Stack] *)

Module Events.

(** Lines 188-190: [f.key = result[0]], [f.x = float(result[1])],
    [f.y = float(result[2])], in that order. *)
Definition read_response (fields : list string) : result response :=
  match Py.index fields 0 with
  | Raise e => Raise e
  | Ok k =>
    match Py.index fields 1 with
    | Raise e => Raise e
    | Ok sx =>
      match Flt.parse sx with
      | Raise e => Raise e
      | Ok x =>
        match Py.index fields 2 with
        | Raise e => Raise e
        | Ok sy =>
          match Flt.parse sy with
          | Raise e => Raise e
          | Ok y => Ok (mkResponse k x y)
          end
        end
      end
    end
  end.

(** Lines 178-191, on the outcomes of the successive
    [self.display.get(command)] calls: a ValueError is swallowed and the
    query repeated, any other exception leaves the method, the first
    reply is split and read.  [None] when every outcome so far was a
    ValueError (the method is still in its loop); the outcomes not yet
    consumed come back with the result. *)
Fixpoint imexam (replies : list (result string))
  : option (result response) * list (result string) :=
  match replies with
  | [] => (None, [])
  | Raise ValueError :: rest => imexam rest
  | Raise e :: rest => (Some (Raise e), rest)
  | Ok text :: rest => (Some (read_response (Str.split text)), rest)
  end.

End Events.

Module Stack.

Record t : Type := mk {
  dir_name : string;
  pattern : string;
  _limits : option (Z * Z)
}.

Section Collaborators.

(** [glob.glob(os.path.join(dir_name, pattern))] and
    [fits.open(path)[0].header[keyword]], as the file system and the FITS
    reader answer them. *)
Variable glob : string -> string -> list string.
Variable header : string -> string -> result Z.

(** Lines 48-50. *)
Definition file_names (self : t) : list string :=
  glob (dir_name self) (pattern self).

(** Lines 52-59: the limits are read from the first file on the first
    call and kept in [_limits]. *)
Definition limits (self : t) : result (Z * Z) * t :=
  match _limits self with
  | Some l => (Ok l, self)
  | None =>
    match Py.index (file_names self) 0 with
    | Raise e => (Raise e, self)
    | Ok first =>
      match header first "NAXIS1" with
      | Raise e => (Raise e, self)
      | Ok xmax =>
        match header first "NAXIS2" with
        | Raise e => (Raise e, self)
        | Ok ymax =>
          (Ok (xmax, ymax), mk (dir_name self) (pattern self) (Some (xmax, ymax)))
        end
      end
    end
  end.

End Collaborators.

End Stack.

(** ** Concrete sessions *)

Module Scenario.

Import DisplayManager.
Local Open Scope list_scope.
Local Open Scope string_scope.
Local Open Scope Z_scope.

Definition file_names : list string := ["a.fits"].

(** The sections of a 256 x 256 image, as line 220 builds them. *)
Definition secs : list tile :=
  [(1, 129, 1, 129); (1, 129, 129, 257); (129, 257, 1, 129);
   (129, 257, 129, 257)].

Definition press (k : string) (x y : float) : response := mkResponse k x y.

(** The program started on the image [a.fits] (256 x 256) with the given
    files on disk, then [b] pressed once: the first section is shown in
    frame 1 and blink is off. *)
Definition ready (files : gmap string string) : state :=
  let s := snd (Main.startup (256, 256) file_names (initial files)) in
  snd (Main.run secs file_names [press "b" 0 0] s).

(** A sidecar holding the points (0,0), (0.5,0.5) and (10,10). *)
Definition three_points : string :=
  "        0.00         0.00" ++ newline ++
  "        0.50         0.50" ++ newline ++
  "       10.00        10.00" ++ newline.

(** The state [load_image('a.fits')] leaves when called with its default
    [section=None] on a fresh display. *)
Definition uncropped : state :=
  snd (load_image "a.fits" SecNone None (initial ∅)).

(** The same frame bound to the string the guards compare against. *)
Definition uncropped_str : state :=
  set_sections (<[frameno (display uncropped) := SecStr "None"]>) uncropped.

End Scenario.

(** ** Vocabulary of the statements *)

(** The computation leaves the tile index of the main loop alone, whether
    it returns or raises. *)
Definition keeps_idx {A} (c : M A) : Prop :=
  forall s, idx (snd (c s)) = idx s.

(** The computation keeps the property [P] of the state, whether it
    returns or raises. *)
Definition preserves {A} (P : state -> Prop) (c : M A) : Prop :=
  forall s, P s -> P (snd (c s)).

(** The computation leaves the component [proj] of the state alone. *)
Definition keeps {X A} (proj : state -> X) (c : M A) : Prop :=
  forall s, proj (snd (c s)) = proj s.

(** * Properties *)

(** ** The builtins on sample inputs *)

Example range_256 : Py.range 1 257 128 = Ok [1; 129].
Proof. reflexivity. Qed.

Example range_zero_step : Py.range 1 257 0 = Raise ValueError.
Proof. reflexivity. Qed.

Example index_negative : Py.index [10; 20; 30] (-1) = Ok 30.
Proof. reflexivity. Qed.

Example split_fields :
  Str.split ("       64.00       192.00" ++ DisplayManager.newline)%string
  = ["64.00"; "192.00"]%string.
Proof. reflexivity. Qed.

Example splitext_fits : Str.splitext "./s1.fits" = ("./s1", ".fits")%string.
Proof. reflexivity. Qed.

Example splitext_hidden : Str.splitext "dir.d/.fits" = ("dir.d/.fits", "")%string.
Proof. reflexivity. Qed.

Example parse_half : Flt.parse "0.50" = Ok 0.5%float.
Proof. vm_compute. reflexivity. Qed.

Example parse_exponent : Flt.parse "-12.5e-1" = Ok (-1.25)%float.
Proof. vm_compute. reflexivity. Qed.

Example parse_tie_to_even : Flt.parse "9007199254740993" = Ok 9007199254740992%float.
Proof. vm_compute. reflexivity. Qed.

Example parse_rejects : Flt.parse "1e" = Raise ValueError.
Proof. vm_compute. reflexivity. Qed.

Example format_tie_to_even : Flt.format_12_2f 0.125 = "        0.12"%string.
Proof. vm_compute. reflexivity. Qed.

Example format_negative_zero : Flt.fixed2 (-0.001953125) = "-0.00"%string.
Proof. vm_compute. reflexivity. Qed.

Example format_wide : Flt.format_12_2f 1e22 = "10000000000000000000000.00"%string.
Proof. vm_compute. reflexivity. Qed.

Example pow2_overflow : Flt.pow2 0x1p+600 = Raise OverflowError.
Proof. vm_compute. reflexivity. Qed.

(** The session of [Scenario.ready] is reached without an exception:
    the start-up returns the four sections, [b] turns blink off, and
    frame 1 shows [a.fits] cut to the first section. *)
Example ready_is_reached :
  let start := Main.startup (256, 256) Scenario.file_names (initial ∅) in
  let s := Scenario.ready ∅ in
  fst start = Ok Scenario.secs
  /\ blink_on (display (snd start)) = true
  /\ blink_on (display s) = false
  /\ frameno (display s) = 1
  /\ loaded (display s) !! 1 = Some "a.fits[1:129,1:129]"%string
  /\ filenames s !! 1 = Some "a.fits"%string
  /\ sections s !! 1 = Some (SecTuple (1, 129, 1, 129))
  /\ idx s = 0.
Proof. vm_compute. repeat split; reflexivity. Qed.

(** ** The section list *)

Section TileGrid.

Variable width : Z.

Local Abbreviation mk := (fun x1 y1 : Z => (x1, x1 + width, y1, y1 + width)).

Lemma range_from_length n s e : length (Py.range_from n s e) = n.
Proof. revert s; induction n; intros; simpl; auto. Qed.

Lemma range_from_nth n : forall s e i,
  (i < n)%nat -> nth_error (Py.range_from n s e) i = Some (s + Z.of_nat i * e).
Proof.
  induction n as [|n IH]; intros s e i Hi; [lia|].
  destruct i as [|i]; simpl.
  - f_equal; lia.
  - rewrite IH by lia. f_equal; lia.
Qed.

Lemma append_row_map x1 dys acc :
  append_row width x1 dys acc = acc ++ map (mk x1) dys.
Proof.
  unfold append_row. revert acc.
  induction dys as [|y1 dys IH]; intros acc; simpl.
  - now rewrite app_nil_r.
  - rewrite IH, <- app_assoc. reflexivity.
Qed.

(** The nested loop builds the rows one after the other: x outer, y inner. *)
Lemma append_rows_flat_map dxs dys acc :
  append_rows width dxs dys acc
  = acc ++ flat_map (fun x1 => map (mk x1) dys) dxs.
Proof.
  unfold append_rows. revert acc.
  induction dxs as [|x1 dxs IH]; intros acc; simpl.
  - now rewrite app_nil_r.
  - rewrite IH, append_row_map, <- app_assoc. reflexivity.
Qed.

Lemma rows_length dxs dys :
  length (flat_map (fun x1 => map (mk x1) dys) dxs)
  = (length dxs * length dys)%nat.
Proof.
  induction dxs as [|x1 dxs IH]; simpl; auto.
  rewrite length_app, length_map, IH. reflexivity.
Qed.

Lemma rows_nth dys : forall dxs i j x1 y1,
  nth_error dxs i = Some x1 -> nth_error dys j = Some y1 ->
  nth_error (flat_map (fun x1 => map (mk x1) dys) dxs)
            (i * length dys + j) = Some (mk x1 y1).
Proof.
  induction dxs as [|x dxs IH]; intros i j x1 y1 Hi Hj.
  - destruct i; discriminate.
  - assert (Hjl : (j < length dys)%nat)
      by (apply nth_error_Some; congruence).
    destruct i as [|i]; simpl in *.
    + injection Hi as ->.
      rewrite nth_error_app1 by (rewrite length_map; lia).
      rewrite nth_error_map, Hj. reflexivity.
    + rewrite nth_error_app2 by (rewrite length_map; lia).
      rewrite length_map.
      replace (length dys + i * length dys + j - length dys)%nat
        with (i * length dys + j)%nat by lia.
      eauto.
Qed.

End TileGrid.

Lemma ceil_div_spec a b :
  0 < b -> (ceil_div a b - 1) * b < a <= ceil_div a b * b.
Proof.
  intros Hb. unfold ceil_div.
  pose proof (Z.div_mod (a + b - 1) b ltac:(lia)).
  pose proof (Z.mod_pos_bound (a + b - 1) b Hb).
  nia.
Qed.

(** The number of starts [range(1, n + 1, e)] produces. *)
Lemma range_len_ceil n e :
  1 <= n -> 1 <= e -> Py.range_len 1 (n + 1) e = ceil_div n e.
Proof.
  intros Hn He. unfold Py.range_len, ceil_div.
  destruct (Z.ltb_spec 0 e); [|lia].
  destruct (Z.ltb_spec 1 (n + 1)); [|lia].
  replace (n + 1 - 1 - 1) with (n - 1) by lia.
  replace (n + e - 1) with (n - 1 + 1 * e) by lia.
  rewrite Z.div_add by lia. lia.
Qed.

Lemma ceil_div_pos n e : 1 <= n -> 1 <= e -> 1 <= ceil_div n e.
Proof.
  intros Hn He. pose proof (ceil_div_spec n e ltac:(lia)). nia.
Qed.

(** Where a coordinate falls: the start [1 + i * e] with [i = (x-1)/e]. *)
Lemma start_of_coordinate n e x :
  1 <= e -> 1 <= x <= n ->
  let i := (x - 1) / e in
  0 <= i < ceil_div n e /\ 1 + i * e <= x <= 1 + i * e + e.
Proof.
  intros He Hx i. subst i.
  pose proof (Z.div_mod (x - 1) e ltac:(lia)).
  pose proof (Z.mod_pos_bound (x - 1) e ltac:(lia)).
  pose proof (ceil_div_spec n e ltac:(lia)).
  assert (0 <= (x - 1) / e) by (apply Z.div_pos; lia).
  split; [split; [lia|]|lia].
  nia.
Qed.

(** C4.  For every width W >= 1, height H >= 1 and edge E >= 1 the section
    list is produced (no exception), every pixel of [1,W] x [1,H] lies in
    one of its tiles, it has ceil(W/E) * ceil(H/E) tiles, and the tile
    with x-start number i and y-start number j sits at position
    i * ceil(H/E) + j: x is the outer loop, y the inner one. *)
Theorem sections_cover_count_order (W H E : Z) :
  1 <= W -> 1 <= H -> 1 <= E ->
  exists secs,
    make_sections (W, H) E = Ok secs
    /\ (forall x y, 1 <= x <= W -> 1 <= y <= H ->
          exists t, In t secs /\ inside x y t)
    /\ Z.of_nat (length secs) = ceil_div W E * ceil_div H E
    /\ (forall i j, 0 <= i < ceil_div W E -> 0 <= j < ceil_div H E ->
          nth_error secs (Z.to_nat (i * ceil_div H E + j))
          = Some (1 + i * E, 1 + i * E + E, 1 + j * E, 1 + j * E + E)).
Proof.
  intros HW HH HE.
  pose proof (ceil_div_pos W E HW HE) as HnW.
  pose proof (ceil_div_pos H E HH HE) as HnH.
  unfold make_sections, Py.range; simpl fst; simpl snd.
  destruct (Z.eqb_spec E 0) as [|_]; [lia|].
  rewrite !range_len_ceil by lia.
  set (nx := Z.to_nat (ceil_div W E)).
  set (ny := Z.to_nat (ceil_div H E)).
  eexists; split; [reflexivity|].
  rewrite append_rows_flat_map; simpl app.
  assert (Hnth : forall i j, 0 <= i < ceil_div W E -> 0 <= j < ceil_div H E ->
    nth_error (flat_map (fun x1 => map (fun y1 => (x1, x1 + E, y1, y1 + E))
                                     (Py.range_from ny 1 E))
                        (Py.range_from nx 1 E))
              (Z.to_nat (i * ceil_div H E + j))
    = Some (1 + i * E, 1 + i * E + E, 1 + j * E, 1 + j * E + E)).
  { intros i j Hi Hj.
    replace (Z.to_nat (i * ceil_div H E + j))
      with (Z.to_nat i * length (Py.range_from ny 1 E) + Z.to_nat j)%nat
      by (rewrite range_from_length; subst ny; nia).
    rewrite (rows_nth E (Py.range_from ny 1 E) (Py.range_from nx 1 E)
               (Z.to_nat i) (Z.to_nat j) (1 + i * E) (1 + j * E)).
    - reflexivity.
    - rewrite range_from_nth by (subst nx; lia). f_equal; lia.
    - rewrite range_from_nth by (subst ny; lia). f_equal; lia. }
  split; [|split].
  - intros x y Hx Hy.
    destruct (start_of_coordinate W E x HE Hx) as [Hi Hxi].
    destruct (start_of_coordinate H E y HE Hy) as [Hj Hyj].
    eexists; split.
    + eapply nth_error_In. apply (Hnth _ _ Hi Hj).
    + simpl. lia.
  - rewrite rows_length, !range_from_length. subst nx ny. nia.
  - exact Hnth.
Qed.

Lemma sections_cover_count_order_witness :
  exists secs,
    make_sections (256, 256) 128 = Ok secs
    /\ (forall x y, 1 <= x <= 256 -> 1 <= y <= 256 ->
          exists t, In t secs /\ inside x y t)
    /\ Z.of_nat (length secs) = ceil_div 256 128 * ceil_div 256 128
    /\ (forall i j, 0 <= i < ceil_div 256 128 -> 0 <= j < ceil_div 256 128 ->
          nth_error secs (Z.to_nat (i * ceil_div 256 128 + j))
          = Some (1 + i * 128, 1 + i * 128 + 128,
                  1 + j * 128, 1 + j * 128 + 128)).
Proof. apply (sections_cover_count_order 256 256 128); lia. Defined.

(** ** Evaluations on concrete sessions *)

Import DisplayManager.

(** C5.  The sections of a 256 x 256 image: the first two are distinct
    tiles and the pixel (1, 129) lies in both (bounds included), so the
    generated tiles are not pairwise disjoint. *)
Theorem sections_share_boundary_pixels :
  make_sections (256, 256) 128 = Ok Scenario.secs
  /\ nth_error Scenario.secs 0 = Some (1, 129, 1, 129)
  /\ nth_error Scenario.secs 1 = Some (1, 129, 129, 257)
  /\ (1, 129, 1, 129) <> (1, 129, 129, 257)
  /\ inside 1 129 (1, 129, 1, 129)
  /\ inside 1 129 (1, 129, 129, 257).
Proof.
  repeat split; try reflexivity; try discriminate; simpl; lia.
Qed.

(** What [save_regions] writes for one region, on any tile whose
    components convert to floats: the y offset is the second component of
    the tuple, the x_max of the tile. *)
Lemma save_region_line path a b c d x y fa fb s :
  Flt.of_int a = Ok fa -> Flt.of_int b = Ok fb ->
  save_region path (SecTuple (a, b, c, d)) (x, y) s
  = File.write path
      (Flt.format_12_2f (x + fa - 1) ++ " " ++ Flt.format_12_2f (y + fb - 1)
         ++ newline)%string s.
Proof.
  intros Ha Hb. unfold save_region, bind, lift, Flt.add_int; simpl.
  rewrite Ha, Hb. reflexivity.
Qed.

(** What [load_regions] draws for one sidecar line holding two numbers:
    the y offset is the third component, the y_min of the tile. *)
Lemma load_region_line_mark a b c d fx fy fa fc sx sy line s :
  Str.split line = [sx; sy] ->
  Flt.parse sx = Ok fx -> Flt.parse sy = Ok fy ->
  Flt.of_int a = Ok fa -> Flt.of_int c = Ok fc ->
  load_region_line (SecTuple (a, b, c, d)) line s
  = mark (fx - fa + 1) (fy - fc + 1) 10 "red" s.
Proof.
  intros Hl Hx Hy Ha Hc. unfold load_region_line, bind, lift, Flt.sub_int.
  rewrite Hl, Hx, Hy; simpl. rewrite Ha, Hc. reflexivity.
Qed.

(** C1.  On the tile (1,129,1,129) the save-time transform sends the
    local point (64,64) to (64,192): y gets [section[1] - 1], the x_max
    of the tile, where the claim has y_min.  Reading that line back with
    the load-time transform of the same tile draws the mark at (64,192),
    not at (64,64). *)
Theorem save_transform_offsets_y_by_x_max :
  let T := SecTuple (1, 129, 1, 129) in
  let s1 := snd (save_region "a.coo" T (64, 64)%float (initial ∅)) in
  disk s1 !! "a.coo"%string
    = Some ("       64.00       192.00" ++ newline)%string
  /\ Flt.format_12_2f (64 + 1 - 1) = "       64.00"%string
  /\ load_region_line T ("       64.00       192.00" ++ newline)%string
                      (Scenario.ready ∅)
     = (Ok tt, set_display (Viewer.add_region (Circle 64 192 10 "red"))
                           (Scenario.ready ∅)).
Proof. vm_compute. repeat split; reflexivity. Qed.

(** C2.  A 256 x 256 image with edge 128 gives the tiles (1,129,1,129),
    (1,129,129,257), (129,257,1,129), (129,257,129,257); with [a.fits]
    shown at the first one, adding a mark at the local point (64,64)
    leaves the sidecar [a.coo] with the single line
    "       64.00       192.00". *)
Theorem scenario_first_tile_mark_sidecar :
  make_sections (256, 256) 128
  = Ok [(1, 129, 1, 129); (1, 129, 129, 257); (129, 257, 1, 129);
        (129, 257, 129, 257)]
  /\ let run := Main.run Scenario.secs Scenario.file_names
                         [Scenario.press "a" 64 64] (Scenario.ready ∅) in
     fst run = Ok false
     /\ disk (snd run) !! "a.coo"%string
        = Some ("       64.00       192.00" ++ newline)%string.
Proof. vm_compute. repeat split; reflexivity. Qed.

(** C3.  With [a.fits] shown at the tile (1,129,1,129) and the stored
    points (0,0), (0.5,0.5), (10,10), [delete_region(0, 0)] rewrites the
    sidecar to the single point (10,138): the two near points are removed,
    but the kept point does not keep its coordinates. *)
Theorem delete_region_moves_kept_points :
  let run := delete_region 0 0
               (Scenario.ready {[ "a.coo"%string := Scenario.three_points ]}) in
  fst run = Ok tt
  /\ disk (snd run) !! "a.coo"%string
     = Some ("       10.00       138.00" ++ newline)%string.
Proof. vm_compute. split; reflexivity. Qed.

(** C8.  The uncropped load [load_image('a.fits')] raises a TypeError and
    leaves frame 1 bound to [None]; with that binding, saving a mark drawn
    at (5,5) raises a TypeError after emptying the sidecar.  With the
    frame bound to the string "None", which the guard does replace by
    (1,0,1,0), the mark (5,5) is saved as (5,4) and reloaded at (5,4). *)
Theorem uncropped_save_reload_changes_y :
  fst (load_image "a.fits" SecNone None (initial ∅)) = Raise TypeError
  /\ sections Scenario.uncropped !! 1 = Some SecNone
  /\ (let run := (mark 5 5 10 "red" >> save_regions) Scenario.uncropped in
      fst run = Raise TypeError
      /\ disk (snd run) !! "a.coo"%string = Some ""%string)
  /\ (let run := (mark 5 5 10 "red" >> save_regions >>
                  display_set Viewer.region_delete_all >> load_regions >>
                  regions) Scenario.uncropped_str in
      disk (snd run) !! "a.coo"%string
        = Some ("        5.00         4.00" ++ newline)%string
      /\ fst run = Ok [(5, 4)%float]).
Proof. vm_compute. repeat split; reflexivity. Qed.

(** ** The tile index *)

Section IdxFrame.

Context {A B : Type}.

Lemma keeps_ret (a : A) : keeps_idx (ret a).
Proof. intros s; reflexivity. Qed.

Lemma keeps_throw (e : exn) : keeps_idx (@throw A e).
Proof. intros s; reflexivity. Qed.

Lemma keeps_lift (r : result A) : keeps_idx (lift r).
Proof. intros s; reflexivity. Qed.

Lemma keeps_gets (f : state -> A) : keeps_idx (gets f).
Proof. intros s; reflexivity. Qed.

Lemma keeps_modify (f : state -> state) :
  (forall s, idx (f s) = idx s) -> keeps_idx (modify f).
Proof. intros Hf s; apply Hf. Qed.

Lemma keeps_bind (c : M A) (k : A -> M B) :
  keeps_idx c -> (forall a, keeps_idx (k a)) -> keeps_idx (bind c k).
Proof.
  intros Hc Hk s. unfold bind.
  specialize (Hc s). destruct (c s) as [[a|e] s']; simpl in *.
  - rewrite Hk. exact Hc.
  - exact Hc.
Qed.

Lemma keeps_for_each (l : list A) (body : A -> M unit) :
  (forall a, keeps_idx (body a)) -> keeps_idx (for_each l body).
Proof.
  intros Hb. induction l as [|a l IH]; simpl.
  - intros s; reflexivity.
  - intros s. unfold bind. specialize (Hb a s).
    destruct (body a s) as [[u|e] s']; simpl in *.
    + rewrite IH. exact Hb.
    + exact Hb.
Qed.

End IdxFrame.

Create HintDb keeps.

Ltac keeps_step :=
  lazymatch goal with
  | |- keeps_idx (bind _ _) => apply keeps_bind; [|intros]
  | |- keeps_idx (ret _) => apply keeps_ret
  | |- keeps_idx (throw _) => apply keeps_throw
  | |- keeps_idx (lift _) => apply keeps_lift
  | |- keeps_idx (gets _) => apply keeps_gets
  | |- keeps_idx (modify _) => apply keeps_modify; intros; reflexivity
  | |- keeps_idx (for_each _ _) => apply keeps_for_each; intros
  | |- keeps_idx (if ?b then _ else _) => destruct b
  | |- keeps_idx (match ?x with _ => _ end) => destruct x
  | |- keeps_idx (let _ := _ in _) => cbv zeta
  | |- _ => solve [auto with keeps]
  end.

Ltac keeps := repeat keeps_step.

Lemma keeps_display_set f : keeps_idx (display_set f).
Proof. unfold display_set. keeps. Qed.
#[local] Hint Resolve keeps_display_set : keeps.

Lemma keeps_cosmetic c : keeps_idx (cosmetic c).
Proof. unfold cosmetic. keeps. Qed.
#[local] Hint Resolve keeps_cosmetic : keeps.

Lemma keeps_dict_get {V} (d : state -> gmap Z V) k : keeps_idx (dict_get d k).
Proof. unfold dict_get. keeps. Qed.
#[local] Hint Resolve keeps_dict_get : keeps.

Lemma keeps_frame_number : keeps_idx frame_number.
Proof. unfold frame_number. keeps. Qed.
#[local] Hint Resolve keeps_frame_number : keeps.

Lemma keeps_region_filename : keeps_idx region_filename.
Proof. unfold region_filename. keeps. Qed.
#[local] Hint Resolve keeps_region_filename : keeps.

Lemma keeps_mark x y r c : keeps_idx (mark x y r c).
Proof. unfold mark. keeps. Qed.
#[local] Hint Resolve keeps_mark : keeps.

Lemma keeps_access p : keeps_idx (File.access p).
Proof. unfold File.access. keeps. Qed.

Lemma keeps_open_read p : keeps_idx (File.open_read p).
Proof. unfold File.open_read. keeps. Qed.

Lemma keeps_open_write p : keeps_idx (File.open_write p).
Proof. unfold File.open_write. keeps. Qed.

Lemma keeps_write p t : keeps_idx (File.write p t).
Proof. unfold File.write. keeps. Qed.

Lemma keeps_unlink p : keeps_idx (File.unlink p).
Proof. unfold File.unlink. keeps. Qed.
#[local] Hint Resolve keeps_access keeps_open_read keeps_open_write
  keeps_write keeps_unlink : keeps.

Lemma keeps_load_regions : keeps_idx load_regions.
Proof. unfold load_regions, load_region_line. keeps. Qed.
#[local] Hint Resolve keeps_load_regions : keeps.

Lemma keeps_regions : keeps_idx regions.
Proof. unfold regions. keeps. Qed.
#[local] Hint Resolve keeps_regions : keeps.

Lemma keeps_save_regions : keeps_idx save_regions.
Proof. unfold save_regions, save_region. keeps. Qed.
#[local] Hint Resolve keeps_save_regions : keeps.

Lemma keeps_delete_region x y : keeps_idx (delete_region x y).
Proof. unfold delete_region, delete_region_line. keeps. Qed.
#[local] Hint Resolve keeps_delete_region : keeps.

Lemma keeps_label x y t : keeps_idx (label x y t).
Proof. unfold label. keeps. Qed.
#[local] Hint Resolve keeps_label : keeps.

Lemma keeps_load_image n sec f : keeps_idx (load_image n sec f).
Proof. unfold load_image. keeps. Qed.
#[local] Hint Resolve keeps_load_image : keeps.

Lemma keeps_blinking : keeps_idx blinking.
Proof. unfold blinking. keeps. Qed.
#[local] Hint Resolve keeps_blinking : keeps.

Lemma keeps_blink setting : keeps_idx (blink setting).
Proof. unfold blink. keeps. Qed.
#[local] Hint Resolve keeps_blink : keeps.

Lemma keeps_load_images fs sec : keeps_idx (load_images fs sec).
Proof. unfold load_images. keeps. Qed.
#[local] Hint Resolve keeps_load_images : keeps.

Lemma keeps_clear : keeps_idx clear.
Proof. unfold clear. keeps. Qed.
#[local] Hint Resolve keeps_clear : keeps.

Lemma keeps_current_section secs : keeps_idx (Main.current_section secs).
Proof. unfold Main.current_section. keeps. Qed.

Lemma keeps_to_global secs i v : keeps_idx (Main.to_global secs i v).
Proof. unfold Main.to_global. keeps. Qed.

Lemma keeps_print t : keeps_idx (Main.print t).
Proof. unfold Main.print. keeps. Qed.

Lemma keeps_print_help : keeps_idx Main.print_help.
Proof. unfold Main.print_help. keeps. Qed.
#[local] Hint Resolve keeps_current_section keeps_to_global keeps_print
  keeps_print_help : keeps.

Lemma keeps_when_key r k body :
  keeps_idx body -> keeps_idx (Main.when_key r k body).
Proof. intros Hb. unfold Main.when_key. keeps. Qed.

Lemma keeps_and_then blk rest :
  keeps_idx blk -> keeps_idx rest -> keeps_idx (Main.and_then blk rest).
Proof. intros Hb Hr. unfold Main.and_then. keeps. Qed.

(** A block decides the index when the statements after it leave it alone. *)
Lemma idx_and_then blk rest s :
  keeps_idx rest ->
  idx (snd (Main.and_then blk rest s)) = idx (snd (blk s)).
Proof.
  intros Hr. unfold Main.and_then, bind.
  destruct (blk s) as [[c|e] s']; simpl; [|reflexivity].
  destruct c; simpl; auto.
Qed.

(** [idx = f(idx)] followed by statements that leave the index alone. *)
Lemma idx_after_move {A} (f : Z -> Z) (k : M A) s :
  keeps_idx k ->
  idx (snd ((let* n := gets idx in modify (set_idx (f n)) >> k) s))
  = f (idx s).
Proof. intros Hk. unfold bind, gets, modify; simpl. rewrite Hk. reflexivity. Qed.

(** What one iteration does to the tile index, whatever else happens in
    it: [n] and [p] move it with [min] and [max], no other key touches it. *)
Lemma loop_body_idx secs files r s :
  idx (snd (Main.loop_body secs files r s))
  = if String.eqb (key r) "n"
    then Z.min (idx s + 1) (Z.of_nat (length secs) - 1)
    else if String.eqb (key r) "p" then Z.max (idx s - 1) 0
    else idx s.
Proof.
  destruct r as [k x y]; simpl key.
  unfold Main.loop_body.
  destruct (String.eqb_spec k "n") as [->|Hn].
  - rewrite idx_and_then.
    + unfold Main.when_key; simpl.
      apply (idx_after_move (fun n => Z.min (n + 1) (Z.of_nat (length secs) - 1))).
      keeps.
    + repeat (apply keeps_and_then); unfold Main.when_key; simpl; keeps.
  - unfold Main.when_key at 1; simpl key.
    destruct (String.eqb_spec k "n") as [|_]; [contradiction|].
    unfold Main.and_then at 1. unfold bind at 1, ret at 1.
    destruct (String.eqb_spec k "p") as [->|Hp].
    + rewrite idx_and_then.
      * unfold Main.when_key; simpl.
        apply (idx_after_move (fun n => Z.max (n - 1) 0)).
        keeps.
      * repeat (apply keeps_and_then); unfold Main.when_key; simpl; keeps.
    + unfold Main.when_key at 1; simpl key.
      destruct (String.eqb_spec k "p") as [|_]; [contradiction|].
      unfold Main.and_then at 1. unfold bind at 1, ret at 1.
      repeat (first [apply keeps_and_then | apply keeps_when_key]); keeps.
Qed.

Lemma index_in_range {A} (l : list A) (i : Z) :
  0 <= i <= Z.of_nat (length l) - 1 -> exists a, Py.index l i = Ok a.
Proof.
  intros Hi. unfold Py.index.
  destruct (Z.ltb_spec i 0); [lia|].
  destruct (Z.ltb_spec i 0); [lia|].
  destruct (Z.leb_spec (Z.of_nat (length l)) i); [lia|]. simpl.
  destruct (nth_error l (Z.to_nat i)) eqn:E; [eauto|].
  apply nth_error_None in E. lia.
Qed.

(** C6.  With a non-empty section list and the tile index in range, the
    index is in range after any sequence of key events (so [sections[idx]]
    never fails); pressing [n] with the index on the last tile leaves it
    on the last tile, pressing [p] with the index on the first tile
    leaves it on the first. *)
Theorem tile_index_saturates secs files responses s x y :
  secs <> [] ->
  0 <= idx s <= Z.of_nat (length secs) - 1 ->
  let last := Z.of_nat (length secs) - 1 in
  let s' := snd (Main.run secs files responses s) in
  0 <= idx s' <= last
  /\ (exists t, Py.index secs (idx s') = Ok t)
  /\ idx (snd (Main.loop_body secs files (mkResponse "n" x y)
                              (set_idx last s))) = last
  /\ idx (snd (Main.loop_body secs files (mkResponse "p" x y)
                              (set_idx 0 s))) = 0.
Proof.
  intros Hne Hidx last s'.
  assert (Hlast : 0 <= last) by (subst last; destruct secs; simpl; [easy|lia]).
  assert (Hrun : 0 <= idx s' <= last).
  { subst s'. revert s Hidx.
    induction responses as [|r rest IH]; intros s Hidx; simpl; [exact Hidx|].
    unfold bind.
    pose proof (loop_body_idx secs files r s) as Hstep.
    assert (Hin : 0 <= idx (snd (Main.loop_body secs files r s)) <= last).
    { rewrite Hstep. fold last.
      destruct (String.eqb (key r) "n"); [lia|].
      destruct (String.eqb (key r) "p"); lia. }
    destruct (Main.loop_body secs files r s) as [[c|e] s1]; simpl in *.
    - destruct c; simpl; auto.
    - exact Hin. }
  split; [exact Hrun|]. split; [apply index_in_range; exact Hrun|].
  rewrite !loop_body_idx; simpl. fold last. split; lia.
Qed.

Lemma tile_index_saturates_witness :
  let secs := Scenario.secs in
  let s := Scenario.ready ∅ in
  let n := Scenario.press "n" 0 0 in
  let p := Scenario.press "p" 0 0 in
  let s' := snd (Main.run secs Scenario.file_names [n; n; n; n; n; p] s) in
  0 <= idx s' <= 3
  /\ (exists t, Py.index secs (idx s') = Ok t)
  /\ idx (snd (Main.loop_body secs Scenario.file_names (mkResponse "n" 0 0)
                              (set_idx 3 s))) = 3
  /\ idx (snd (Main.loop_body secs Scenario.file_names (mkResponse "p" 0 0)
                              (set_idx 0 s))) = 0.
Proof.
  apply (tile_index_saturates Scenario.secs Scenario.file_names
           [Scenario.press "n" 0 0; Scenario.press "n" 0 0;
            Scenario.press "n" 0 0; Scenario.press "n" 0 0;
            Scenario.press "n" 0 0; Scenario.press "p" 0 0]
           (Scenario.ready ∅) 0%float 0%float).
  - discriminate.
  - vm_compute. split; discriminate.
Defined.

(** ** Marking while blink is on *)

Lemma blinking_on s :
  blink_on (display s) = true -> blinking s = (Ok true, s).
Proof.
  intros Hb. unfold blinking, gets, Viewer.get_blink. rewrite Hb. reflexivity.
Qed.

(** C7.  An add-mark ([a]) or delete-mark ([d]) event that arrives while
    blink is on prints a warning and ends the iteration with [continue]:
    the state after it is the state before with one line more on the
    standard output (viewer, frame bindings, files and tile index are the
    same), and the loop goes on with the next event. *)
Theorem mark_keys_rejected_while_blinking secs files k x y rest s :
  blink_on (display s) = true ->
  k = "a"%string \/ k = "d"%string ->
  exists warning,
    let s' := set_stdout (fun o => o ++ [Printed warning]) s in
    Main.loop_body secs files (mkResponse k x y) s = (Ok Continue, s')
    /\ display s' = display s
    /\ filenames s' = filenames s
    /\ sections s' = sections s
    /\ disk s' = disk s
    /\ idx s' = idx s
    /\ Main.run secs files (mkResponse k x y :: rest) s
       = Main.run secs files rest s'.
Proof.
  intros Hb [-> | ->].
  - exists "Toggle off blink (b) before marking."%string.
    assert (Hstep : Main.loop_body secs files (mkResponse "a" x y) s
                    = (Ok Continue,
                       set_stdout (fun o => o ++ [Printed
                         "Toggle off blink (b) before marking."%string]) s)).
    { unfold Main.loop_body, Main.and_then, Main.when_key; simpl.
      unfold bind at 1 2 3 4; simpl.
      unfold bind at 1. rewrite (blinking_on s Hb). reflexivity. }
    repeat split; try reflexivity; try exact Hstep.
    simpl Main.run. unfold bind at 1. rewrite Hstep. reflexivity.
  - exists "Toggle off blink (b) before deleting a mark."%string.
    assert (Hstep : Main.loop_body secs files (mkResponse "d" x y) s
                    = (Ok Continue,
                       set_stdout (fun o => o ++ [Printed
                         "Toggle off blink (b) before deleting a mark."%string]) s)).
    { unfold Main.loop_body, Main.and_then, Main.when_key; simpl.
      unfold bind at 1 2 3 4 5; simpl.
      unfold bind at 1. rewrite (blinking_on s Hb). reflexivity. }
    repeat split; try reflexivity; try exact Hstep.
    simpl Main.run. unfold bind at 1. rewrite Hstep. reflexivity.
Qed.

Lemma mark_keys_rejected_while_blinking_witness :
  let s := snd (Main.startup (256, 256) Scenario.file_names (initial ∅)) in
  exists warning,
    let s' := set_stdout (fun o => o ++ [Printed warning]) s in
    Main.loop_body Scenario.secs Scenario.file_names (mkResponse "a" 64 64) s
    = (Ok Continue, s')
    /\ display s' = display s
    /\ filenames s' = filenames s
    /\ sections s' = sections s
    /\ disk s' = disk s
    /\ idx s' = idx s
    /\ Main.run Scenario.secs Scenario.file_names
                (mkResponse "a" 64 64 :: [Scenario.press "q" 0 0]) s
       = Main.run Scenario.secs Scenario.file_names [Scenario.press "q" 0 0] s'.
Proof.
  apply (mark_keys_rejected_while_blinking Scenario.secs Scenario.file_names
           "a" 64 64 [Scenario.press "q" 0 0]
           (snd (Main.startup (256, 256) Scenario.file_names (initial ∅)))).
  - vm_compute. reflexivity.
  - left. reflexivity.
Defined.

(** ** Missing sidecars and uncropped frames *)

Lemma region_filename_bound s name :
  filenames s !! frameno (display s) = Some name ->
  region_filename s
  = (Ok (fst (Str.splitext name) ++ "." ++ reg_extension)%string, s).
Proof.
  intros Hn. unfold region_filename, frame_number, dict_get, bind, gets.
  simpl. rewrite Hn. reflexivity.
Qed.

(** [load_regions] when the sidecar of the current frame does not exist:
    the early [return] of line 95. *)
Lemma load_regions_absent s name :
  filenames s !! frameno (display s) = Some name ->
  disk s !! (fst (Str.splitext name) ++ "." ++ reg_extension)%string = None ->
  load_regions s = (Ok tt, s).
Proof.
  intros Hn Hd. unfold load_regions. unfold bind at 1.
  rewrite (region_filename_bound s name Hn).
  unfold bind at 1. unfold File.access, gets. rewrite Hd.
  reflexivity.
Qed.

(** C10.  When the sidecar of the image shown in the current frame does
    not exist, [delete_region] raises (the [open] for reading fails with
    an IOError, nothing has been changed yet), whereas [load_regions]
    returns normally and draws no mark. *)
Theorem delete_region_raises_without_sidecar x y s name :
  filenames s !! frameno (display s) = Some name ->
  disk s !! (fst (Str.splitext name) ++ "." ++ reg_extension)%string = None ->
  delete_region x y s = (Raise IOError, s)
  /\ load_regions s = (Ok tt, s).
Proof.
  intros Hn Hd. split.
  - unfold delete_region. unfold bind at 1.
    rewrite (region_filename_bound s name Hn).
    unfold bind at 1. unfold File.open_read, bind, gets. rewrite Hd.
    reflexivity.
  - exact (load_regions_absent s name Hn Hd).
Qed.

Lemma delete_region_raises_without_sidecar_witness :
  delete_region 3 4 (Scenario.ready ∅) = (Raise IOError, Scenario.ready ∅)
  /\ load_regions (Scenario.ready ∅) = (Ok tt, Scenario.ready ∅).
Proof.
  apply (delete_region_raises_without_sidecar 3 4 (Scenario.ready ∅) "a.fits");
    vm_compute; reflexivity.
Defined.

Lemma bind_ok {A B} (c : M A) (k : A -> M B) s a s' :
  c s = (Ok a, s') -> bind c k s = k a s'.
Proof. intros H. unfold bind. rewrite H. reflexivity. Qed.

Lemma bind_raise {A B} (c : M A) (k : A -> M B) s e s' :
  c s = (Raise e, s') -> bind c k s = (Raise e, s').
Proof. intros H. unfold bind. rewrite H. reflexivity. Qed.

Lemma append_char_nonempty (cur : string) (c : ascii) :
  (cur ++ String c "")%string <> ""%string.
Proof. destruct cur; simpl; discriminate. Qed.

Lemma lines_aux_nil s : forall cur,
  Str.lines_aux s cur = [] <-> s = ""%string /\ cur = ""%string.
Proof.
  induction s as [|c s IH]; intros cur; simpl.
  - destruct (String.eqb_spec cur ""); split; easy.
  - split; [|intros [? _]; discriminate].
    destruct (Ascii.eqb c "010"); [discriminate|].
    intros H. apply IH in H as [_ H].
    now apply append_char_nonempty in H.
Qed.

(** A file gives no line exactly when it is empty. *)
Lemma readlines_nil content :
  Str.readlines content = [] <-> content = ""%string.
Proof. unfold Str.readlines. rewrite lines_aux_nil. tauto. Qed.

(** With the section [None] every sidecar line raises: a ValueError from
    the unpacking or from [float], else a TypeError at [section[0]]. *)
Lemma load_region_line_none line s :
  exists e, load_region_line SecNone line s = (Raise e, s).
Proof.
  unfold load_region_line.
  destruct (Str.split line) as [|x [|y [|z l]]]; try (eexists; reflexivity).
  unfold bind at 1, lift. destruct (Flt.parse x); eexists; reflexivity.
Qed.

(** With the section [None] every region to save raises a TypeError. *)
Lemma save_region_none path p s :
  save_region path SecNone p s = (Raise TypeError, s).
Proof. reflexivity. Qed.

Lemma parse_regions_cases rs :
  if existsb has_circle rs
  then (exists e, parse_regions rs = Raise e)
       \/ (exists p l, parse_regions rs = Ok (p :: l))
  else parse_regions rs = Ok [].
Proof.
  induction rs as [|r rs IH]; simpl; [reflexivity|].
  destruct (has_circle r); simpl; [|exact IH].
  destruct (match_circle r) as [p|e]; [|left; eauto].
  destruct (parse_regions rs) as [l|e]; [right|left]; eauto.
Qed.

(** [load_regions] on a frame bound to [None] whose sidecar exists: the
    loop over its lines, with the section left as it is. *)
Lemma load_regions_none s name content :
  filenames s !! frameno (display s) = Some name ->
  sections s !! frameno (display s) = Some SecNone ->
  disk s !! (fst (Str.splitext name) ++ "." ++ reg_extension)%string
    = Some content ->
  load_regions s
  = for_each (Str.readlines content) (load_region_line SecNone) s.
Proof.
  intros Hn Hs Hd. unfold load_regions.
  rewrite (bind_ok _ _ _ _ _ (region_filename_bound s name Hn)).
  assert (Ha : File.access (fst (Str.splitext name) ++ "." ++ reg_extension)%string s
               = (Ok true, s)).
  { unfold File.access, gets. rewrite Hd.
    rewrite bool_decide_eq_true_2 by eauto. reflexivity. }
  rewrite (bind_ok _ _ _ _ _ Ha). change (negb true) with false. cbv iota.
  assert (Hf : frame_number s = (Ok (frameno (display s)), s)) by reflexivity.
  rewrite (bind_ok _ _ _ _ _ Hf).
  assert (Hg : dict_get sections (frameno (display s)) s = (Ok SecNone, s)).
  { unfold dict_get, bind, gets. rewrite Hs. reflexivity. }
  rewrite (bind_ok _ _ _ _ _ Hg). cbv zeta.
  rewrite (bind_ok _ _ _ _ _ (region_filename_bound s name Hn)).
  assert (Ho : File.open_read (fst (Str.splitext name) ++ "." ++ reg_extension)%string s
               = (Ok content, s)).
  { unfold File.open_read, bind, gets. rewrite Hd. reflexivity. }
  rewrite (bind_ok _ _ _ _ _ Ho). reflexivity.
Qed.

(** [save_regions] on a frame bound to [None]: the sidecar is emptied,
    then the regions read back from the viewer are saved one by one. *)
Lemma save_regions_none s name :
  filenames s !! frameno (display s) = Some name ->
  sections s !! frameno (display s) = Some SecNone ->
  let path := (fst (Str.splitext name) ++ "." ++ reg_extension)%string in
  let s1 := set_disk (<[path := ""%string]>) s in
  save_regions s
  = match parse_regions (Viewer.current_regions (display s)) with
    | Ok rs => for_each rs (save_region path SecNone) s1
    | Raise e => (Raise e, s1)
    end.
Proof.
  intros Hn Hs path s1. unfold save_regions.
  rewrite (bind_ok _ _ _ _ _ (region_filename_bound s name Hn)).
  fold path.
  assert (Hw : File.open_write path s = (Ok tt, s1)) by reflexivity.
  rewrite (bind_ok _ _ _ _ _ Hw).
  assert (Hf : frame_number s1 = (Ok (frameno (display s)), s1)) by reflexivity.
  rewrite (bind_ok _ _ _ _ _ Hf).
  assert (Hg : dict_get sections (frameno (display s)) s1 = (Ok SecNone, s1)).
  { unfold dict_get, bind, gets.
    change (sections s1) with (sections s). rewrite Hs. reflexivity. }
  rewrite (bind_ok _ _ _ _ _ Hg). cbv zeta.
  unfold regions, bind, gets, lift.
  change (display s1) with (display s).
  destruct (parse_regions (Viewer.current_regions (display s))); reflexivity.
Qed.

(** C9 (amended).  [load_image(path, section=None)] always raises a
    TypeError, at [section[1] - 10], after the cutout [[*,*]] has been
    sent and the binding (path, None) recorded for the frame.  The guard
    of [load_regions] and [save_regions] does not replace [None]; on a
    frame bound to [None], [load_regions] raises exactly when the sidecar
    exists and is not empty, and [save_regions] raises exactly when the
    frame carries a region line with the word [circle]. *)
Theorem uncropped_load_raises image_name fno s0 s name :
  filenames s !! frameno (display s) = Some name ->
  sections s !! frameno (display s) = Some SecNone ->
  (let run := load_image image_name SecNone fno s0 in
   let n := frameno (display (snd run)) in
   fst run = Raise TypeError
   /\ loaded (display (snd run)) !! n = Some (image_name ++ "[*,*]")%string
   /\ filenames (snd run) !! n = Some image_name
   /\ sections (snd run) !! n = Some SecNone)
  /\ sentinel SecNone = SecNone
  /\ (raises (fst (load_regions s)) <->
      exists content,
        disk s !! (fst (Str.splitext name) ++ "." ++ reg_extension)%string
          = Some content
        /\ content <> ""%string)
  /\ (raises (fst (save_regions s)) <->
      existsb has_circle (Viewer.current_regions (display s)) = true).
Proof.
  intros Hn Hs.
  split; [|split; [reflexivity|split]].
  - destruct fno; cbv zeta; unfold load_image, bind, modify, display_set,
      cosmetic, ret, lift, frame_number, gets; simpl;
      rewrite !lookup_insert_eq; auto.
  - destruct (disk s !! (fst (Str.splitext name) ++ "." ++ reg_extension)%string)
      as [content|] eqn:Hd.
    + rewrite (load_regions_none s name content Hn Hs Hd).
      destruct (Str.readlines content) as [|line rest] eqn:Hl.
      * apply readlines_nil in Hl. subst content. simpl. split.
        -- intros [e He]; discriminate.
        -- intros (c & Hc & Hne). injection Hc as <-. contradiction.
      * split; [intros _|intros _].
        -- exists content. split; [reflexivity|].
           intros ->. discriminate.
        -- simpl for_each. destruct (load_region_line_none line s) as [e He].
           rewrite (bind_raise _ _ _ _ _ He). exists e. reflexivity.
    + rewrite (load_regions_absent s name Hn Hd). simpl.
      split.
      * intros [e He]; discriminate.
      * intros (c & Hc & _); discriminate.
  - rewrite (save_regions_none s name Hn Hs). cbv zeta.
    pose proof (parse_regions_cases (Viewer.current_regions (display s))) as Hc.
    destruct (existsb has_circle (Viewer.current_regions (display s))).
    + split; [reflexivity|intros _].
      destruct Hc as [[e He]|(p & l & Hp)].
      * rewrite He. exists e; reflexivity.
      * rewrite Hp. simpl for_each.
        rewrite (bind_raise _ _ _ _ _ (save_region_none _ p _)).
        exists TypeError; reflexivity.
    + rewrite Hc. simpl. split; [intros [e He]|]; discriminate.
Qed.

Lemma uncropped_load_raises_witness :
  let s := Scenario.uncropped in
  (let run := load_image "a.fits" SecNone None (initial ∅) in
   let n := frameno (display (snd run)) in
   fst run = Raise TypeError
   /\ loaded (display (snd run)) !! n = Some ("a.fits" ++ "[*,*]")%string
   /\ filenames (snd run) !! n = Some "a.fits"%string
   /\ sections (snd run) !! n = Some SecNone)
  /\ sentinel SecNone = SecNone
  /\ (raises (fst (load_regions s)) <->
      exists content,
        disk s !! (fst (Str.splitext "a.fits") ++ "." ++ reg_extension)%string
          = Some content
        /\ content <> ""%string)
  /\ (raises (fst (save_regions s)) <->
      existsb has_circle (Viewer.current_regions (display s)) = true).
Proof.
  apply (uncropped_load_raises "a.fits" None (initial ∅) Scenario.uncropped
           "a.fits"); vm_compute; reflexivity.
Defined.

(** C9, as stated, fails on the frame that the uncropped load of [a.fits]
    leaves bound to [None]: with no sidecar and no marker drawn, both
    [load_regions] and [save_regions] return normally. *)
Lemma none_binding_without_marks_returns :
  sections Scenario.uncropped !! frameno (display Scenario.uncropped)
    = Some SecNone
  /\ fst (load_regions Scenario.uncropped) = Ok tt
  /\ fst (save_regions Scenario.uncropped) = Ok tt
  /\ ~ raises (fst (load_regions Scenario.uncropped))
  /\ ~ raises (fst (save_regions Scenario.uncropped)).
Proof.
  repeat split; try (vm_compute; reflexivity);
    intros [e He]; vm_compute in He; discriminate.
Qed.

(** * Further properties of the code *)

(** ** The section list, continued *)

Lemma range_from_In n : forall s e x,
  In x (Py.range_from n s e) <->
  exists i, (i < n)%nat /\ x = s + Z.of_nat i * e.
Proof.
  induction n as [|n IH]; intros s e x; simpl.
  - split; [contradiction|]. intros (i & Hi & _); lia.
  - rewrite IH. split.
    + intros [<-|(i & Hi & ->)].
      * exists 0%nat. split; lia.
      * exists (S i). split; lia.
    + intros (i & Hi & ->). destruct i as [|i].
      * left; lia.
      * right. exists i. split; lia.
Qed.

(** The starts [range(1, n + 1, e)] yields: [1 + i * e], all at most [n]. *)
Lemma range_starts n e x l :
  1 <= e -> Py.range 1 (n + 1) e = Ok l -> In x l ->
  1 <= x <= n /\ (x - 1) mod e = 0.
Proof.
  intros He Hr Hx. unfold Py.range in Hr.
  destruct (Z.eqb_spec e 0); [lia|]. injection Hr as <-.
  apply range_from_In in Hx as (i & Hi & ->).
  unfold Py.range_len in Hi.
  destruct (Z.ltb_spec 0 e); [|lia].
  destruct (Z.ltb_spec 1 (n + 1)); [|simpl in Hi; lia].
  assert (Hq : Z.of_nat i <= (n + 1 - 1 - 1) / e) by lia.
  pose proof (Z.mul_div_le (n + 1 - 1 - 1) e ltac:(lia)).
  split; [nia|].
  replace (1 + Z.of_nat i * e - 1) with (Z.of_nat i * e) by lia.
  apply Z.mod_mul; lia.
Qed.

Lemma make_sections_In limits width secs t :
  make_sections limits width = Ok secs -> In t secs ->
  exists dxs dys x1 y1,
    Py.range 1 (fst limits + 1) width = Ok dxs
    /\ Py.range 1 (snd limits + 1) width = Ok dys
    /\ In x1 dxs /\ In y1 dys
    /\ t = (x1, x1 + width, y1, y1 + width).
Proof.
  unfold make_sections. intros Hm Ht.
  destruct (Py.range 1 (fst limits + 1) width) as [dxs|]; [|discriminate].
  destruct (Py.range 1 (snd limits + 1) width) as [dys|]; [|discriminate].
  injection Hm as <-.
  rewrite append_rows_flat_map in Ht; simpl in Ht.
  apply in_flat_map in Ht as (x1 & Hx & Ht).
  apply in_map_iff in Ht as (y1 & <- & Hy).
  exists dxs, dys, x1, y1. auto.
Qed.

(** X1.  Every tile of the section list is [(x1, x1 + E, y1, y1 + E)] with
    its lower corner inside the image and on the grid of stride E from 1:
    each tile spans E + 1 pixels on both axes. *)
Theorem sections_tile_shape W H E secs a b c d :
  1 <= E ->
  make_sections (W, H) E = Ok secs ->
  In (a, b, c, d) secs ->
  b = a + E /\ d = c + E
  /\ 1 <= a <= W /\ 1 <= c <= H
  /\ (a - 1) mod E = 0 /\ (c - 1) mod E = 0.
Proof.
  intros HE Hm Ht.
  destruct (make_sections_In _ _ _ _ Hm Ht)
    as (dxs & dys & x1 & y1 & Hdx & Hdy & Hx & Hy & Heq).
  injection Heq as -> -> -> ->. simpl in Hdx, Hdy.
  destruct (range_starts W E x1 dxs HE Hdx Hx).
  destruct (range_starts H E y1 dys HE Hdy Hy).
  repeat split; lia.
Qed.

Lemma sections_tile_shape_witness :
  129 = 1 + 128 /\ 257 = 129 + 128
  /\ 1 <= 1 <= 256 /\ 1 <= 129 <= 256
  /\ (1 - 1) mod 128 = 0 /\ (129 - 1) mod 128 = 0.
Proof.
  apply (sections_tile_shape 256 256 128 Scenario.secs 1 129 129 257).
  - lia.
  - reflexivity.
  - simpl. right. left. reflexivity.
Defined.

(** The tile with x-start number [i] and y-start number [j]. *)
Lemma sections_nth W H E secs i j :
  1 <= W -> 1 <= H -> 1 <= E ->
  make_sections (W, H) E = Ok secs ->
  0 <= i < ceil_div W E -> 0 <= j < ceil_div H E ->
  nth_error secs (Z.to_nat (i * ceil_div H E + j))
  = Some (1 + i * E, 1 + i * E + E, 1 + j * E, 1 + j * E + E).
Proof.
  intros HW HH HE Hm Hi Hj.
  unfold make_sections, Py.range in Hm; simpl fst in Hm; simpl snd in Hm.
  destruct (Z.eqb_spec E 0) as [|_]; [lia|].
  rewrite !range_len_ceil in Hm by lia. injection Hm as <-.
  rewrite append_rows_flat_map; simpl app.
  set (ny := Z.to_nat (ceil_div H E)).
  replace (Z.to_nat (i * ceil_div H E + j))
    with (Z.to_nat i * length (Py.range_from ny 1 E) + Z.to_nat j)%nat
    by (rewrite range_from_length; subst ny; nia).
  rewrite (rows_nth E (Py.range_from ny 1 E) _
             (Z.to_nat i) (Z.to_nat j) (1 + i * E) (1 + j * E)).
  - reflexivity.
  - rewrite range_from_nth by lia. f_equal; lia.
  - rewrite range_from_nth by (subst ny; lia). f_equal; lia.
Qed.

Lemma sections_length W H E secs :
  1 <= W -> 1 <= H -> 1 <= E ->
  make_sections (W, H) E = Ok secs ->
  Z.of_nat (length secs) = ceil_div W E * ceil_div H E.
Proof.
  intros HW HH HE Hm.
  pose proof (ceil_div_pos W E HW HE). pose proof (ceil_div_pos H E HH HE).
  unfold make_sections, Py.range in Hm; simpl fst in Hm; simpl snd in Hm.
  destruct (Z.eqb_spec E 0) as [|_]; [lia|].
  rewrite !range_len_ceil in Hm by lia. injection Hm as <-.
  rewrite append_rows_flat_map; simpl app.
  rewrite rows_length, !range_from_length. nia.
Qed.

(** X2.  The last tile of the list always runs past the image on both
    axes: its lower corner is inside, its upper bounds x1 + E and y1 + E
    are beyond W and H (by at most E), also when E divides W and H. *)
Theorem sections_last_tile_overshoots W H E secs :
  1 <= W -> 1 <= H -> 1 <= E ->
  make_sections (W, H) E = Ok secs ->
  exists a c,
    nth_error secs (length secs - 1) = Some (a, a + E, c, c + E)
    /\ a <= W < a + E /\ c <= H < c + E.
Proof.
  intros HW HH HE Hm.
  pose proof (ceil_div_pos W E HW HE) as HnW.
  pose proof (ceil_div_pos H E HH HE) as HnH.
  pose proof (ceil_div_spec W E ltac:(lia)).
  pose proof (ceil_div_spec H E ltac:(lia)).
  pose proof (sections_length W H E secs HW HH HE Hm) as Hlen.
  pose proof (sections_nth W H E secs (ceil_div W E - 1) (ceil_div H E - 1)
                HW HH HE Hm ltac:(lia) ltac:(lia)) as Hn.
  replace (Z.to_nat ((ceil_div W E - 1) * ceil_div H E + (ceil_div H E - 1)))
    with (length secs - 1)%nat in Hn by nia.
  exists (1 + (ceil_div W E - 1) * E), (1 + (ceil_div H E - 1) * E).
  split; [exact Hn|]. lia.
Qed.

Lemma sections_last_tile_overshoots_witness :
  exists a c,
    nth_error Scenario.secs (length Scenario.secs - 1)
    = Some (a, a + 128, c, c + 128)
    /\ a <= 256 < a + 128 /\ c <= 256 < c + 128.
Proof.
  apply (sections_last_tile_overshoots 256 256 128 Scenario.secs);
    [lia | lia | lia | reflexivity].
Defined.



(** ** Invariance through the monad *)

Section Preserve.

Context {A B : Type} (P : state -> Prop).

Lemma preserves_ret (a : A) : preserves P (ret a).
Proof. intros s Hs; exact Hs. Qed.

Lemma preserves_throw (e : exn) : preserves P (@throw A e).
Proof. intros s Hs; exact Hs. Qed.

Lemma preserves_lift (r : result A) : preserves P (lift r).
Proof. intros s Hs; exact Hs. Qed.

Lemma preserves_gets (f : state -> A) : preserves P (gets f).
Proof. intros s Hs; exact Hs. Qed.

Lemma preserves_modify (f : state -> state) :
  (forall s, P s -> P (f s)) -> preserves P (modify f).
Proof. intros Hf s Hs; apply Hf, Hs. Qed.

Lemma preserves_bind (c : M A) (k : A -> M B) :
  preserves P c -> (forall a, preserves P (k a)) -> preserves P (bind c k).
Proof.
  intros Hc Hk s Hs. unfold bind.
  specialize (Hc s Hs). destruct (c s) as [[a|e] s']; simpl in *.
  - apply Hk, Hc.
  - exact Hc.
Qed.

Lemma preserves_for_each (l : list A) (body : A -> M unit) :
  (forall a, preserves P (body a)) -> preserves P (for_each l body).
Proof.
  intros Hb. induction l as [|a l IH]; simpl.
  - intros s Hs; exact Hs.
  - intros s Hs. unfold bind. specialize (Hb a s Hs).
    destruct (body a s) as [[u|e] s']; simpl in *.
    + apply IH, Hb.
    + exact Hb.
Qed.

End Preserve.

Lemma keeps_of_preserves {X A} (proj : state -> X) (c : M A) :
  (forall v, preserves (fun s => proj s = v) c) -> keeps proj c.
Proof. intros H s. apply (H (proj s)). reflexivity. Qed.

Lemma keeps_ok {X A} (proj : state -> X) (c : M A) s r s' :
  keeps proj c -> c s = (r, s') -> proj s' = proj s.
Proof. intros H E. specialize (H s). rewrite E in H. exact H. Qed.

Ltac head_of t :=
  lazymatch t with
  | ?f _ => head_of f
  | _ => t
  end.

(** Structural descent through a computation; [side] closes the goals
    left by the state updates. *)
Ltac preserve_step side :=
  lazymatch goal with
  | |- preserves _ (bind _ _) => apply preserves_bind; [|intros]
  | |- preserves _ (ret _) => apply preserves_ret
  | |- preserves _ (throw _) => apply preserves_throw
  | |- preserves _ (lift _) => apply preserves_lift
  | |- preserves _ (gets _) => apply preserves_gets
  | |- preserves _ (modify _) => apply preserves_modify; side
  | |- preserves _ (for_each _ _) => apply preserves_for_each; intros
  | |- preserves _ (if ?b then _ else _) => destruct b
  | |- preserves _ (match ?x with _ => _ end) => destruct x
  | |- preserves _ (let _ := _ in _) => cbv zeta
  | |- preserves _ ?c => let h := head_of c in unfold h
  end.

Ltac preserve side := repeat (preserve_step side).

Ltac keeps_field :=
  apply keeps_of_preserves; intros ?;
  preserve ltac:(intros ? ?; assumption).

(** What the loading methods never touch: the files. *)
Lemma load_images_keeps_disk fs sec : keeps disk (load_images fs sec).
Proof. keeps_field. Qed.

Lemma load_image_keeps_disk n sec f : keeps disk (load_image n sec f).
Proof. keeps_field. Qed.

Lemma clear_keeps_disk : keeps disk clear.
Proof. keeps_field. Qed.

Lemma blink_keeps_disk w : keeps disk (blink w).
Proof. keeps_field. Qed.

Lemma delete_region_line_keeps_disk x y line :
  keeps disk (delete_region_line x y line).
Proof. keeps_field. Qed.

(** ** One iteration, key by key *)

Lemma and_then_skip rest s :
  Main.and_then (ret Fallthrough) rest s = rest s.
Proof. reflexivity. Qed.

Lemma and_then_noop blk rest s :
  (forall s', rest s' = (Ok Fallthrough, s')) ->
  Main.and_then blk rest s = blk s.
Proof.
  intros Hr. unfold Main.and_then, bind.
  destruct (blk s) as [[[]|e] s']; try reflexivity. apply Hr.
Qed.

Lemma loop_body_q secs files x y s :
  Main.loop_body secs files (mkResponse "q" x y) s
  = (Ok Break, set_display (Viewer.set_blink "no") s).
Proof. reflexivity. Qed.


(** X5.  The key [q] turns blink off, whatever it was, changes nothing
    else, and ends the loop: the events after it are never looked at. *)
Theorem quit_forces_blink_off secs files x y rest s :
  let s' := snd (Main.loop_body secs files (mkResponse "q" x y) s) in
  Main.run secs files (mkResponse "q" x y :: rest) s = (Ok true, s')
  /\ blink_on (display s') = false
  /\ frames (display s') = frames (display s)
  /\ frameno (display s') = frameno (display s)
  /\ overlay (display s') = overlay (display s)
  /\ filenames s' = filenames s /\ sections s' = sections s
  /\ disk s' = disk s /\ stdout s' = stdout s /\ idx s' = idx s.
Proof.
  cbv zeta. simpl Main.run. unfold bind at 1.
  rewrite loop_body_q. simpl. repeat split; reflexivity.
Qed.


(** X7.  A key that is none of [n], [p], [b], [a], [d], [question], [q]
    does nothing at all. *)
Theorem unknown_key_is_noop secs files r s :
  ~ In (key r) ["n"; "p"; "b"; "a"; "d"; "question"; "q"]%string ->
  Main.loop_body secs files r s = (Ok Fallthrough, s).
Proof.
  intros Hk. unfold Main.loop_body, Main.when_key.
  repeat match goal with
  | |- context [String.eqb (key r) ?k] =>
    destruct (String.eqb_spec (key r) k) as [He|_];
      [exfalso; apply Hk; rewrite He; simpl; tauto|]
  end.
  reflexivity.
Qed.

Lemma unknown_key_is_noop_witness :
  Main.loop_body Scenario.secs Scenario.file_names (Scenario.press "x" 5 5)
                 (Scenario.ready ∅)
  = (Ok Fallthrough, Scenario.ready ∅).
Proof.
  apply (unknown_key_is_noop Scenario.secs Scenario.file_names
           (Scenario.press "x" 5 5) (Scenario.ready ∅)).
  simpl. intros H.
  repeat (destruct H as [H|H]; [discriminate H|]). exact H.
Defined.

(** X8.  Only the keys [a] and [d] can change a file: for every other key
    the files are the same after the iteration as before it, whether the
    iteration completes or raises. *)
Theorem only_mark_keys_write_files secs files r s :
  key r <> "a"%string -> key r <> "d"%string ->
  disk (snd (Main.loop_body secs files r s)) = disk s.
Proof.
  intros Ha Hd. apply String.eqb_neq in Ha, Hd.
  revert s. change (keeps disk (Main.loop_body secs files r)).
  unfold Main.loop_body, Main.when_key. rewrite Ha, Hd. cbv iota.
  keeps_field.
Qed.

Lemma only_mark_keys_write_files_witness :
  disk (snd (Main.loop_body Scenario.secs Scenario.file_names
               (Scenario.press "n" 0 0)
               (Scenario.ready {[ "a.coo"%string := Scenario.three_points ]})))
  = disk (Scenario.ready {[ "a.coo"%string := Scenario.three_points ]}).
Proof.
  apply (only_mark_keys_write_files Scenario.secs Scenario.file_names
           (Scenario.press "n" 0 0)); simpl; discriminate.
Defined.

(** X9.  [n] followed by [p] brings the tile index back, except on the
    last tile, where [n] does not move and [p] then goes one back. *)
Theorem next_then_previous secs files x y x' y' s :
  0 <= idx s <= Z.of_nat (length secs) - 1 ->
  let last := Z.of_nat (length secs) - 1 in
  let s1 := snd (Main.loop_body secs files (mkResponse "n" x y) s) in
  let s2 := snd (Main.loop_body secs files (mkResponse "p" x' y') s1) in
  idx s2 = if idx s <? last then idx s else Z.max (last - 1) 0.
Proof.
  intros Hi last s1 s2. subst s1 s2.
  rewrite !loop_body_idx; simpl. fold last.
  destruct (Z.ltb_spec (idx s) last); lia.
Qed.

Lemma next_then_previous_witness :
  let s := set_idx 3 (Scenario.ready ∅) in
  let s1 := snd (Main.loop_body Scenario.secs Scenario.file_names
                   (mkResponse "n" 0 0) s) in
  let s2 := snd (Main.loop_body Scenario.secs Scenario.file_names
                   (mkResponse "p" 0 0) s1) in
  idx s2 = if idx s <? 3 then idx s else Z.max (3 - 1) 0.
Proof.
  apply (next_then_previous Scenario.secs Scenario.file_names 0 0 0 0
           (set_idx 3 (Scenario.ready ∅))).
  simpl. lia.
Defined.

Lemma rows_of_nothing (width : Z) (dxs : list Z) :
  append_rows width dxs [] [] = [].
Proof.
  rewrite append_rows_flat_map. simpl.
  induction dxs as [|x1 dxs IH]; simpl; auto.
Qed.

(** X3.  An image with no column or no row (NAXIS1 < 1 or NAXIS2 < 1)
    gives an empty section list, and the program then stops at its first
    [sections[idx]] with an IndexError, before anything is loaded. *)
Theorem startup_raises_on_empty_image W H files s :
  W < 1 \/ H < 1 ->
  make_sections (W, H) 128 = Ok []
  /\ fst (Main.startup (W, H) files s) = Raise IndexError
  /\ frames (display (snd (Main.startup (W, H) files s))) = [].
Proof.
  intros Hwh.
  assert (Hm : make_sections (W, H) 128 = Ok []).
  { unfold make_sections, Py.range, Py.range_len; simpl.
    destruct Hwh as [Hw|Hh].
    - destruct (Z.ltb_spec 1 (W + 1)); [lia|]. reflexivity.
    - destruct (Z.ltb_spec 1 (H + 1)); [lia|]. simpl.
      now rewrite rows_of_nothing. }
  split; [exact Hm|].
  unfold Main.startup. cbv zeta. unfold bind at 1, lift at 1.
  rewrite Hm. split; reflexivity.
Qed.

Lemma startup_raises_on_empty_image_witness :
  make_sections (0, 256) 128 = Ok []
  /\ fst (Main.startup (0, 256) Scenario.file_names (initial ∅))
     = Raise IndexError
  /\ frames (display (snd (Main.startup (0, 256) Scenario.file_names
                             (initial ∅)))) = [].
Proof.
  apply (startup_raises_on_empty_image 0 256 Scenario.file_names (initial ∅)).
  left. lia.
Defined.

(** ** Saving *)

Lemma string_app_assoc (a b c : string) :
  ((a ++ b) ++ c = a ++ (b ++ c))%string.
Proof.
  induction a as [|ch a IH]; [reflexivity|].
  change (String ch ((a ++ b) ++ c) = String ch (a ++ (b ++ c)))%string.
  f_equal; exact IH.
Qed.

Lemma string_app_empty (a : string) : (a ++ "")%string = a.
Proof.
  induction a as [|ch a IH]; [reflexivity|].
  change (String ch (a ++ "") = String ch a)%string.
  f_equal; exact IH.
Qed.

Lemma write_appends path text acc s :
  disk s !! path = Some acc ->
  File.write path text s
  = (Ok tt, set_disk (<[path := (acc ++ text)%string]>) s).
Proof.
  intros Hd. unfold File.write, modify, set_disk. rewrite Hd. reflexivity.
Qed.

(** The loop of [save_regions] on a tuple section appends one line per
    region to what the file holds. *)
Lemma save_loop_appends path a b c d fa fb pts : forall acc s,
  Flt.of_int a = Ok fa -> Flt.of_int b = Ok fb ->
  disk s !! path = Some acc ->
  for_each pts (save_region path (SecTuple (a, b, c, d))) s
  = (Ok tt,
     set_disk (<[path :=
        (acc ++ fold_right String.append ""
           (map (fun p => Flt.format_12_2f (fst p + fa - 1) ++ " "
                          ++ Flt.format_12_2f (snd p + fb - 1) ++ newline)
                pts))%string]>) s).
Proof.
  induction pts as [|[x y] pts IH]; intros acc s Ha Hb Hd; simpl.
  - rewrite string_app_empty. unfold ret, set_disk.
    rewrite insert_id by exact Hd. destruct s; reflexivity.
  - rewrite (bind_ok _ _ s tt
      (set_disk (<[path := (acc ++ (Flt.format_12_2f (x + fa - 1) ++ " "
                 ++ Flt.format_12_2f (y + fb - 1) ++ newline))%string]>) s)).
    + rewrite (IH _ _ Ha Hb (lookup_insert_eq _ _ _)).
      unfold set_disk; simpl. rewrite insert_insert_eq.
      rewrite string_app_assoc. reflexivity.
    + rewrite (save_region_line path a b c d x y fa fb s Ha Hb).
      apply write_appends, Hd.
Qed.

(** X10.  [save_regions] on a frame bound to a tuple section replaces the
    sidecar by exactly one line per circle read back from the viewer, in
    drawing order, whatever the file held before (or if it did not
    exist); saving again right away changes nothing. *)
Theorem save_regions_overwrites s name a b c d fa fb pts :
  filenames s !! frameno (display s) = Some name ->
  sections s !! frameno (display s) = Some (SecTuple (a, b, c, d)) ->
  Flt.of_int a = Ok fa -> Flt.of_int b = Ok fb ->
  parse_regions (Viewer.current_regions (display s)) = Ok pts ->
  let path := (fst (Str.splitext name) ++ "." ++ reg_extension)%string in
  let text :=
    fold_right String.append ""%string
      (map (fun p => Flt.format_12_2f (fst p + fa - 1) ++ " "
                     ++ Flt.format_12_2f (snd p + fb - 1) ++ newline)%string
           pts) in
  let s' := set_disk (<[path := text]>) s in
  save_regions s = (Ok tt, s') /\ save_regions s' = (Ok tt, s').
Proof.
  intros Hn Hs Ha Hb Hp path text s'.
  assert (Hsave : forall s0,
    filenames s0 !! frameno (display s0) = Some name ->
    sections s0 !! frameno (display s0) = Some (SecTuple (a, b, c, d)) ->
    parse_regions (Viewer.current_regions (display s0)) = Ok pts ->
    save_regions s0 = (Ok tt, set_disk (<[path := text]>) s0)).
  { intros s0 Hn0 Hs0 Hp0. unfold save_regions.
    rewrite (bind_ok _ _ _ _ _ (region_filename_bound s0 name Hn0)).
    fold path.
    set (s1 := set_disk (<[path := ""%string]>) s0).
    assert (Hw : File.open_write path s0 = (Ok tt, s1)) by reflexivity.
    rewrite (bind_ok _ _ _ _ _ Hw).
    assert (Hf : frame_number s1 = (Ok (frameno (display s0)), s1))
      by reflexivity.
    rewrite (bind_ok _ _ _ _ _ Hf).
    assert (Hg : dict_get sections (frameno (display s0)) s1
                 = (Ok (SecTuple (a, b, c, d)), s1)).
    { unfold dict_get, bind, gets.
      change (sections s1) with (sections s0). rewrite Hs0. reflexivity. }
    rewrite (bind_ok _ _ _ _ _ Hg). cbv zeta. simpl sentinel.
    assert (Hr : regions s1 = (Ok pts, s1)).
    { unfold regions, bind, gets, lift.
      change (display s1) with (display s0). rewrite Hp0. reflexivity. }
    rewrite (bind_ok _ _ _ _ _ Hr).
    rewrite (save_loop_appends path a b c d fa fb pts ""%string s1 Ha Hb
               (lookup_insert_eq _ _ _)).
    subst s1. unfold set_disk; simpl. rewrite insert_insert_eq. reflexivity. }
  split; [apply Hsave; assumption|].
  rewrite (Hsave s') by assumption.
  subst s'. unfold set_disk; simpl. rewrite insert_insert_eq. reflexivity.
Qed.

Lemma save_regions_overwrites_witness :
  let s := snd (mark 64 64 10 "red"
                  (Scenario.ready {[ "a.coo"%string := Scenario.three_points ]})) in
  let pts := [(0, 0); (0.5, 0.5); (10, 10); (64, 64)]%float in
  let path := (fst (Str.splitext "a.fits") ++ "." ++ reg_extension)%string in
  let text :=
    fold_right String.append ""%string
      (map (fun p => Flt.format_12_2f (fst p + 1 - 1) ++ " "
                     ++ Flt.format_12_2f (snd p + 129 - 1) ++ newline)%string
           pts) in
  let s' := set_disk (<[path := text]>) s in
  save_regions s = (Ok tt, s') /\ save_regions s' = (Ok tt, s').
Proof.
  apply (save_regions_overwrites
           (snd (mark 64 64 10 "red"
                   (Scenario.ready {[ "a.coo"%string := Scenario.three_points ]})))
           "a.fits" 1 129 1 129 1%float 129%float
           [(0, 0); (0.5, 0.5); (10, 10); (64, 64)]%float);
    vm_compute; reflexivity.
Defined.

(** ** Sidecar lines that do not have two fields *)

Lemma raises_bind {A B} (c : M A) (k : A -> M B) s :
  (forall a s1, c s = (Ok a, s1) -> raises (fst (k a s1))) ->
  raises (fst (bind c k s)).
Proof.
  intros Hk. unfold bind. destruct (c s) as [[a|e] s1] eqn:E.
  - apply Hk. reflexivity.
  - exists e. reflexivity.
Qed.

Lemma for_each_raises {A} (body : A -> M unit) (a : A) (l : list A) :
  In a l -> (forall s, raises (fst (body a s))) ->
  forall s, raises (fst (for_each l body s)).
Proof.
  intros Hin Hb. induction l as [|b l IH]; [contradiction|].
  intros s. simpl. destruct Hin as [->|Hin].
  - unfold bind. destruct (Hb s) as [e He].
    destruct (body a s) as [[u|e'] s1]; [discriminate|].
    exists e'. reflexivity.
  - apply raises_bind. intros u s1 _. apply IH, Hin.
Qed.

Lemma index_out_of_range {A} (l : list A) (i : Z) :
  Z.of_nat (length l) <= i -> Py.index l i = Raise IndexError.
Proof.
  intros Hi. unfold Py.index.
  destruct (Z.ltb_spec i 0); [lia|].
  destruct (Z.ltb_spec i 0); [lia|].
  destruct (Z.leb_spec (Z.of_nat (length l)) i); [|lia].
  reflexivity.
Qed.

Lemma delete_region_line_short x y line s :
  (length (Str.split line) < 2)%nat ->
  raises (fst (delete_region_line x y line s)).
Proof.
  intros Hl. unfold delete_region_line.
  destruct (Str.split line) as [|v0 [|v1 l]]; simpl in Hl; [| |lia].
  - eexists; reflexivity.
  - unfold bind, lift; simpl. destruct (Flt.parse v0); eexists; reflexivity.
Qed.

(** X11.  When some line of the sidecar has fewer than two fields (a
    blank line, say), [delete_region] raises inside its loop, after the
    sidecar has been unlinked and before it is written again: the file is
    gone. *)
Theorem delete_region_short_line_loses_sidecar x y s name content line :
  filenames s !! frameno (display s) = Some name ->
  let path := (fst (Str.splitext name) ++ "." ++ reg_extension)%string in
  disk s !! path = Some content ->
  In line (Str.readlines content) ->
  (length (Str.split line) < 2)%nat ->
  raises (fst (delete_region x y s))
  /\ disk (snd (delete_region x y s)) !! path = None.
Proof.
  intros Hn path Hd Hin Hshort. unfold delete_region.
  rewrite (bind_ok _ _ _ _ _ (region_filename_bound s name Hn)). fold path.
  assert (Ho : File.open_read path s = (Ok content, s)).
  { unfold File.open_read, bind, gets. rewrite Hd. reflexivity. }
  rewrite (bind_ok _ _ _ _ _ Ho). cbv zeta.
  rewrite (bind_ok _ _ _ _ _ (region_filename_bound s name Hn)). fold path.
  assert (Hu : File.unlink path s = (Ok tt, set_disk (delete path) s)).
  { unfold File.unlink, bind, gets. rewrite Hd. reflexivity. }
  rewrite (bind_ok _ _ _ _ _ Hu).
  set (s2 := set_display Viewer.region_delete_all (set_disk (delete path) s)).
  assert (Hr : display_set Viewer.region_delete_all (set_disk (delete path) s)
               = (Ok tt, s2)) by reflexivity.
  rewrite (bind_ok _ _ _ _ _ Hr).
  pose proof (for_each_raises (delete_region_line x y) line _ Hin
                (fun s0 => delete_region_line_short x y line s0 Hshort) s2)
    as [e He].
  assert (Hk : keeps disk (for_each (Str.readlines content)
                                    (delete_region_line x y))).
  { apply keeps_of_preserves; intros v. apply preserves_for_each.
    intros a s0 Hs0. rewrite delete_region_line_keeps_disk. exact Hs0. }
  specialize (Hk s2).
  destruct (for_each (Str.readlines content) (delete_region_line x y) s2)
    as [[u|e'] s3] eqn:E; simpl in He; [discriminate|].
  rewrite (bind_raise _ _ _ _ _ E). simpl in *. split.
  - exists e'. reflexivity.
  - rewrite Hk. apply lookup_delete_eq.
Qed.

Lemma delete_region_short_line_loses_sidecar_witness :
  let s := Scenario.ready ∅ in
  let s0 := set_disk (<["a.coo"%string := newline]>) s in
  raises (fst (delete_region 0 0 s0))
  /\ disk (snd (delete_region 0 0 s0))
       !! (fst (Str.splitext "a.fits") ++ "." ++ reg_extension)%string = None.
Proof.
  apply (delete_region_short_line_loses_sidecar 0 0
           (set_disk (<["a.coo"%string := newline]>) (Scenario.ready ∅))
           "a.fits" newline newline).
  - vm_compute. reflexivity.
  - vm_compute. reflexivity.
  - left. reflexivity.
  - vm_compute. lia.
Defined.

(** X12.  [load_regions] takes a line only when it has exactly two
    fields: on any other line it raises a ValueError (the unpacking of
    [line.split()]) and draws nothing for it. *)
Theorem load_region_line_needs_two_fields section line s :
  length (Str.split line) <> 2%nat ->
  load_region_line section line s = (Raise ValueError, s).
Proof.
  intros Hl. unfold load_region_line.
  destruct (Str.split line) as [|v0 [|v1 [|v2 l]]]; simpl in Hl;
    try reflexivity.
  contradiction.
Qed.

Lemma load_region_line_needs_two_fields_witness :
  load_region_line (SecTuple (1, 129, 1, 129)) "1.0 2.0 3.0" (Scenario.ready ∅)
  = (Raise ValueError, Scenario.ready ∅).
Proof.
  apply (load_region_line_needs_two_fields (SecTuple (1, 129, 1, 129))
           "1.0 2.0 3.0" (Scenario.ready ∅)).
  vm_compute. discriminate.
Defined.

(** X13.  [delete_region] reads the first two fields of a line and
    ignores the others: a line with surplus fields is treated like the
    line made of its first two. *)
Theorem delete_region_line_ignores_surplus x y line line2 v0 v1 more s :
  Str.split line = v0 :: v1 :: more ->
  Str.split line2 = [v0; v1] ->
  delete_region_line x y line s = delete_region_line x y line2 s.
Proof.
  intros H1 H2. unfold delete_region_line. rewrite H1, H2.
  assert (Hi0 : forall l : list string, Py.index (v0 :: v1 :: l) 0 = Ok v0).
  { intros l. unfold Py.index. cbn [length].
    change (0 <? 0) with false. cbv iota.
    destruct (Z.leb_spec (Z.of_nat (S (S (length l)))) 0); [lia|].
    reflexivity. }
  assert (Hi1 : forall l : list string, Py.index (v0 :: v1 :: l) 1 = Ok v1).
  { intros l. unfold Py.index. cbn [length].
    change (1 <? 0) with false. cbv iota.
    destruct (Z.leb_spec (Z.of_nat (S (S (length l)))) 1); [lia|].
    reflexivity. }
  cbv zeta. rewrite !Hi0, !Hi1. reflexivity.
Qed.

Lemma delete_region_line_ignores_surplus_witness :
  delete_region_line 0 0 "10.0 10.0 comment" (Scenario.ready ∅)
  = delete_region_line 0 0 "10.0 10.0" (Scenario.ready ∅).
Proof.
  apply (delete_region_line_ignores_surplus 0 0 "10.0 10.0 comment"
           "10.0 10.0" "10.0" "10.0" ["comment"%string] (Scenario.ready ∅));
    reflexivity.
Defined.

(** ** Loading *)

Lemma blinking_value s : blinking s = (Ok (blink_on (display s)), s).
Proof.
  unfold blinking, gets, Viewer.get_blink.
  destruct (blink_on (display s)); reflexivity.
Qed.

Lemma load_image_keeps_blink n sec f :
  keeps (fun s => blink_on (display s)) (load_image n sec f).
Proof. keeps_field. Qed.

(** X14.  [load_images] gives the blink state back as it found it when it
    returns; when a load raises, blink is left off (it was switched off
    for the loading, or was off already). *)
Theorem load_images_restores_blink files section s :
  let run := load_images files section s in
  match fst run with
  | Ok _ => blink_on (display (snd run)) = blink_on (display s)
  | Raise _ => blink_on (display (snd run)) = false
  end.
Proof.
  cbv zeta. unfold load_images.
  rewrite (bind_ok _ _ _ _ _ (blinking_value s)).
  assert (Hk : keeps (fun s => blink_on (display s))
                 (for_each files (fun file_name =>
                    load_image file_name section None))).
  { apply keeps_of_preserves; intros v. apply preserves_for_each.
    intros a s0 Hs0. rewrite load_image_keeps_blink. exact Hs0. }
  destruct (blink_on (display s)) eqn:Hb.
  - set (s1 := set_display (Viewer.set_blink "no") s).
    assert (H1 : blink (Some "no"%string) s = (Ok tt, s1)) by reflexivity.
    rewrite (bind_ok _ _ _ _ _ H1).
    specialize (Hk s1).
    destruct (for_each files (fun file_name =>
                load_image file_name section None) s1) as [[u|e] s2] eqn:E.
    + rewrite (bind_ok _ _ _ _ _ E). reflexivity.
    + rewrite (bind_raise _ _ _ _ _ E). exact Hk.
  - assert (H1 : ret tt s = (Ok tt, s)) by reflexivity.
    rewrite (bind_ok _ _ _ _ _ H1).
    specialize (Hk s). simpl in Hk. rewrite Hb in Hk.
    destruct (for_each files (fun file_name =>
                load_image file_name section None) s) as [[u|e] s2] eqn:E.
    + rewrite (bind_ok _ _ _ _ _ E). exact Hk.
    + rewrite (bind_raise _ _ _ _ _ E). exact Hk.
Qed.

(** The state [load_image] reaches on a tuple section, whether its last
    steps (label, reload of the marks) return or raise. *)
Lemma load_image_tuple_state name t s :
  let n := 1 + fold_right Z.max 0 (frames (display s)) in
  let s' := snd (load_image name (SecTuple t) None s) in
  frames (display s') = frames (display s) ++ [n]
  /\ frameno (display s') = n
  /\ filenames s' = <[n := name]> (filenames s)
  /\ sections s' = <[n := SecTuple t]> (sections s)
  /\ disk s' = disk s
  /\ blink_on (display s') = blink_on (display s)
  /\ idx s' = idx s
  /\ stdout s' = stdout s.
Proof.
  destruct t as [[[a b] c] d]. intros n s'.
  set (cutout := ("[" ++ int_str a ++ ":" ++ int_str b ++ "," ++ int_str c
                      ++ ":" ++ int_str d ++ "]")%string).
  set (mid := set_sections (<[n := SecTuple (a, b, c, d)]>)
               (set_filenames (<[n := name]>)
                 (set_display (Viewer.file (name ++ cutout)%string)
                   (set_display Viewer.frame_new s)))).
  set (tail :=
    cosmetic "zoom to fit" >>
    let* s1 := lift (section_int (SecTuple (a, b, c, d)) 1) in
    let x := s1 - 10 in
    let* s2 := lift (section_int (SecTuple (a, b, c, d)) 2) in
    let* s3 := lift (section_int (SecTuple (a, b, c, d)) 3) in
    let* ysum := lift (Flt.of_int (s2 + s3)) in
    let y := (ysum / 2)%float in
    label x y (name ++ cutout)%string >>
    load_regions).
  assert (Heq : load_image name (SecTuple (a, b, c, d)) None s = tail mid)
    by reflexivity.
  set (Q := fun st : state =>
    frames (display st) = frames (display mid)
    /\ frameno (display st) = frameno (display mid)
    /\ filenames st = filenames mid
    /\ sections st = sections mid
    /\ disk st = disk mid
    /\ blink_on (display st) = blink_on (display mid)
    /\ idx st = idx mid
    /\ stdout st = stdout mid).
  assert (Hp : preserves Q tail).
  { unfold tail. preserve ltac:(intros ? HQ; exact HQ). }
  subst s'. rewrite Heq.
  assert (HQ : Q mid) by (repeat split; reflexivity).
  apply Hp in HQ. exact HQ.
Qed.

(** X15.  [load_image] with a section tuple always opens a new frame,
    numbered one above the highest frame there is, makes it current and
    binds it to the image and the section, also when it then raises on
    the label or on the sidecar; it changes no file and no older frame
    number. *)
Theorem load_image_binds_new_frame name t s :
  let n := 1 + fold_right Z.max 0 (frames (display s)) in
  let s' := snd (load_image name (SecTuple t) None s) in
  ~ In n (frames (display s))
  /\ frames (display s') = frames (display s) ++ [n]
  /\ frameno (display s') = n
  /\ filenames s' !! n = Some name
  /\ sections s' !! n = Some (SecTuple t)
  /\ (forall k, k <> n -> filenames s' !! k = filenames s !! k
                          /\ sections s' !! k = sections s !! k)
  /\ disk s' = disk s.
Proof.
  intros n s'.
  destruct (load_image_tuple_state name t s)
    as (Hf & Hn & Hnames & Hsecs & Hd & _).
  fold n in Hf, Hn, Hnames, Hsecs. fold s' in Hf, Hn, Hnames, Hsecs, Hd.
  split.
  { intros Hin.
    assert (Hmax : forall l k, In k l -> k <= fold_right Z.max 0 l).
    { induction l as [|h l IH]; simpl; [contradiction|].
      intros k [->|Hk]; [lia|]. specialize (IH k Hk). lia. }
    apply Hmax in Hin. subst n. lia. }
  rewrite Hnames, Hsecs, !lookup_insert_eq.
  repeat split; auto; rewrite lookup_insert_ne; auto.
Qed.

Lemma bind_ok_inv {A B} (c : M A) (k : A -> M B) s b s' :
  bind c k s = (Ok b, s') ->
  exists a s1, c s = (Ok a, s1) /\ k a s1 = (Ok b, s').
Proof.
  unfold bind. destruct (c s) as [[a|e] s1]; [|discriminate].
  intros H. exists a, s1. auto.
Qed.

Lemma max_app (l : list Z) (k : Z) :
  fold_right Z.max 0 (l ++ [k]) = Z.max (fold_right Z.max 0 l) k.
Proof.
  induction l as [|h l IH]; simpl; [lia|]. rewrite IH. lia.
Qed.

Lemma max_first_frames (m : nat) :
  fold_right Z.max 0 (map Z.of_nat (seq 1 m)) = Z.of_nat m.
Proof.
  induction m as [|m IH]; [reflexivity|].
  rewrite seq_S, map_app. cbn [map]. rewrite max_app, IH. lia.
Qed.

(** The loop of [load_images] on a viewer whose frames are 1 .. m. *)
Lemma load_all_binds t files : forall m s s',
  frames (display s) = map Z.of_nat (seq 1 m) ->
  for_each files (fun file_name => load_image file_name (SecTuple t) None) s
  = (Ok tt, s') ->
  frames (display s') = map Z.of_nat (seq 1 (m + length files))
  /\ (forall k name, nth_error files k = Some name ->
        filenames s' !! Z.of_nat (m + S k) = Some name
        /\ sections s' !! Z.of_nat (m + S k) = Some (SecTuple t))
  /\ (forall j, j <= Z.of_nat m \/ Z.of_nat (m + length files) < j ->
        filenames s' !! j = filenames s !! j
        /\ sections s' !! j = sections s !! j)
  /\ (files <> [] -> frameno (display s') = Z.of_nat (m + length files)).
Proof.
  induction files as [|f fs IH]; intros m s s' Hfr Hrun.
  - simpl in Hrun. injection Hrun as <-.
    rewrite Nat.add_0_r. repeat split; auto.
    + destruct k; discriminate.
    + destruct k; discriminate.
    + contradiction.
  - simpl in Hrun. apply bind_ok_inv in Hrun as (u & s1 & H1 & Hrest).
    destruct (load_image_tuple_state f t s)
      as (Hf1 & Hn1 & Hnames1 & Hsecs1 & _).
    rewrite H1 in Hf1, Hn1, Hnames1, Hsecs1. simpl in Hf1, Hn1, Hnames1, Hsecs1.
    rewrite Hfr, max_first_frames in Hf1, Hn1, Hnames1, Hsecs1.
    assert (Hfr1 : frames (display s1) = map Z.of_nat (seq 1 (S m))).
    { rewrite Hf1, seq_S, map_app. simpl. do 3 f_equal. lia. }
    destruct (IH (S m) s1 s' Hfr1 Hrest) as (Hfr' & Hnew & Hold & Hcur).
    assert (Hfirst : filenames s' !! Z.of_nat (m + 1) = Some f
                     /\ sections s' !! Z.of_nat (m + 1) = Some (SecTuple t)).
    { destruct (Hold (Z.of_nat (m + 1)) ltac:(lia)) as [-> ->].
      rewrite Hnames1, Hsecs1.
      replace (Z.of_nat (m + 1)) with (1 + Z.of_nat m) by lia.
      rewrite !lookup_insert_eq. auto. }
    split; [|split; [|split]].
    + rewrite Hfr'. simpl length. do 2 f_equal. lia.
    + intros k name Hk. destruct k as [|k]; simpl in Hk.
      * injection Hk as <-. exact Hfirst.
      * replace (m + S (S k))%nat with (S m + S k)%nat by lia.
        apply Hnew, Hk.
    + intros j Hj. simpl length in Hj.
      destruct (Hold j ltac:(lia)) as [-> ->].
      rewrite Hnames1, Hsecs1.
      rewrite !lookup_insert_ne by lia. auto.
    + intros _. destruct fs as [|f' fs'].
      * simpl in Hrest. injection Hrest as <-. rewrite Hn1. simpl. lia.
      * rewrite Hcur by discriminate. simpl. f_equal; lia.
Qed.

Lemma blink_state w s :
  exists b, blink w s
            = (Ok tt, set_display (fun v => mkViewer (frames v) (frameno v)
                                     (loaded v) (overlay v) b) s).
Proof.
  unfold blink, bind, display_set, modify, blinking, gets, ret.
  destruct w as [w|]; [destruct (String.eqb w "")|]; eexists; reflexivity.
Qed.

(** What a [load_images] that returns has bound, on a viewer without
    frames. *)
Lemma load_images_bindings files t s s' :
  frames (display s) = [] ->
  load_images files (SecTuple t) s = (Ok tt, s') ->
  frames (display s') = map Z.of_nat (seq 1 (length files))
  /\ (forall k name, nth_error files k = Some name ->
        filenames s' !! (Z.of_nat k + 1) = Some name
        /\ sections s' !! (Z.of_nat k + 1) = Some (SecTuple t))
  /\ (forall j, Z.of_nat (length files) < j ->
        filenames s' !! j = filenames s !! j
        /\ sections s' !! j = sections s !! j)
  /\ (files <> [] ->
      frameno (display s') = Z.of_nat (length files)
      /\ exists name,
           Py.index files (frameno (display s') - 1) = Ok name
           /\ filenames s' !! frameno (display s') = Some name).
Proof.
  intros Hfr Hrun. unfold load_images in Hrun.
  rewrite (bind_ok _ _ _ _ _ (blinking_value s)) in Hrun.
  apply bind_ok_inv in Hrun as (u1 & s1 & H1 & Hrun).
  apply bind_ok_inv in Hrun as (u2 & s2 & H2 & H3).
  destruct u1.
  assert (Hs1 : frames (display s1) = [] /\ True).
  { destruct (blink_on (display s)).
    - destruct (blink_state (Some "no"%string) s) as [b Hb].
      rewrite Hb in H1. injection H1 as <-. auto.
    - injection H1 as <-. auto. }
  destruct Hs1 as [Hfr1 _].
  destruct u2.
  destruct (load_all_binds t files 0 s1 s2 Hfr1 H2) as (Hf & Hnew & Hold & Hcur).
  assert (Hsame1 : filenames s1 = filenames s /\ sections s1 = sections s).
  { destruct (blink_on (display s)).
    - destruct (blink_state (Some "no"%string) s) as [b Hb].
      rewrite Hb in H1. injection H1 as <-. auto.
    - injection H1 as <-. auto. }
  destruct Hsame1 as [Hn1 Hs1].
  assert (Hsame : frames (display s') = frames (display s2)
                  /\ frameno (display s') = frameno (display s2)
                  /\ filenames s' = filenames s2
                  /\ sections s' = sections s2).
  { destruct (blink_on (display s)).
    - destruct (blink_state (Some "yes"%string) s2) as [b Hb].
      rewrite Hb in H3. injection H3 as <-. auto.
    - injection H3 as <-. auto. }
  destruct Hsame as (-> & -> & -> & ->).
  split; [exact Hf|]. split; [|split].
  - intros k name Hk. destruct (Hnew k name Hk) as [Ha Hb].
    replace (Z.of_nat k + 1) with (Z.of_nat (0 + S k)) by lia. auto.
  - intros j Hj. destruct (Hold j ltac:(simpl; lia)) as [-> ->].
    rewrite Hn1, Hs1. auto.
  - intros Hne. specialize (Hcur Hne). simpl in Hcur.
    split; [exact Hcur|].
    assert (Hlen : (0 < length files)%nat)
      by (destruct files; [contradiction|simpl; lia]).
    destruct (nth_error files (length files - 1)) as [name|] eqn:E;
      [|apply nth_error_None in E; lia].
    exists name. split.
    + rewrite Hcur. unfold Py.index.
      destruct (Z.ltb_spec (Z.of_nat (length files) - 1) 0); [lia|].
      destruct (Z.ltb_spec (Z.of_nat (length files) - 1) 0); [lia|].
      destruct (Z.leb_spec (Z.of_nat (length files))
                           (Z.of_nat (length files) - 1)); [lia|].
      simpl orb. cbv iota.
      replace (Z.to_nat (Z.of_nat (length files) - 1))
        with (length files - 1)%nat by lia.
      rewrite E. reflexivity.
    + destruct (Hnew _ _ E) as [Ha _]. rewrite Hcur.
      replace (Z.of_nat (length files)) with (Z.of_nat (0 + S (length files - 1)))
        by lia.
      exact Ha.
Qed.

(** X16.  On a viewer without frames (after [clear]), a [load_images]
    that returns has opened the frames 1 .. len(file_names), frame k + 1
    bound to the k-th file name and to the section; the current frame is
    the last one, and [file_names[frame_number - 1]] is the name bound to
    it. *)
Theorem load_images_binds_in_order files t s s' :
  frames (display s) = [] ->
  load_images files (SecTuple t) s = (Ok tt, s') ->
  frames (display s') = map Z.of_nat (seq 1 (length files))
  /\ (forall k name, nth_error files k = Some name ->
        filenames s' !! (Z.of_nat k + 1) = Some name
        /\ sections s' !! (Z.of_nat k + 1) = Some (SecTuple t))
  /\ (files <> [] ->
      frameno (display s') = Z.of_nat (length files)
      /\ exists name,
           Py.index files (frameno (display s') - 1) = Ok name
           /\ filenames s' !! frameno (display s') = Some name).
Proof.
  intros Hfr Hrun.
  destruct (load_images_bindings files t s s' Hfr Hrun) as (H1 & H2 & _ & H3).
  auto.
Qed.


Lemma load_images_binds_in_order_witness :
  let s := snd (clear (Scenario.ready ∅)) in
  let s' := snd (load_images ["a.fits"; "b.fits"]%string
                             (SecTuple (1, 129, 1, 129)) s) in
  frames (display s') = map Z.of_nat (seq 1 (length ["a.fits"; "b.fits"]%string))
  /\ (forall k name, nth_error ["a.fits"; "b.fits"]%string k = Some name ->
        filenames s' !! (Z.of_nat k + 1) = Some name
        /\ sections s' !! (Z.of_nat k + 1) = Some (SecTuple (1, 129, 1, 129)))
  /\ (["a.fits"; "b.fits"]%string <> [] ->
      frameno (display s') = Z.of_nat (length ["a.fits"; "b.fits"]%string)
      /\ exists name,
           Py.index ["a.fits"; "b.fits"]%string (frameno (display s') - 1)
           = Ok name
           /\ filenames s' !! frameno (display s') = Some name).
Proof.
  apply (load_images_binds_in_order ["a.fits"; "b.fits"]%string
           (1, 129, 1, 129) (snd (clear (Scenario.ready ∅)))).
  - reflexivity.
  - vm_compute. reflexivity.
Defined.

(** ** Deleting twice, and names with the word circle *)

Lemma to_global_state secs i v s r s' :
  Main.to_global secs i v s = (r, s') -> s' = s.
Proof.
  intros H.
  assert (Hk : keeps (fun st => st) (Main.to_global secs i v))
    by keeps_field.
  exact (keeps_ok _ _ _ _ _ Hk H).
Qed.

Lemma current_section_state secs s r s' :
  Main.current_section secs s = (Ok r, s') ->
  s' = s /\ exists t, r = SecTuple t.
Proof.
  intros H.
  assert (Hk : keeps (fun st => st) (Main.current_section secs))
    by keeps_field.
  split; [exact (keeps_ok _ _ _ _ _ Hk H)|].
  unfold Main.current_section, bind, gets, lift, ret in H.
  destruct (Py.index secs (idx s)) as [t|]; [|discriminate].
  injection H as <- _. eauto.
Qed.

Lemma delete_region_keeps_viewer x y :
  keeps (fun s => (frames (display s), frameno (display s),
                   blink_on (display s))) (delete_region x y).
Proof. keeps_field. Qed.

(** The [d] block of the loop body, reached with blink off. *)
Lemma loop_body_d secs files x y s :
  blink_on (display s) = false ->
  Main.loop_body secs files (mkResponse "d" x y) s
  = (let* gx := Main.to_global secs 0 x in
     let* gy := Main.to_global secs 2 y in
     delete_region gx gy >>
     let* n := frame_number in
     let* name := lift (Py.index files (n - 1)) in
     let* section := Main.current_section secs in
     load_image name section None >>
     ret Fallthrough) s.
Proof.
  intros Hb. unfold Main.loop_body, Main.when_key; simpl.
  rewrite !and_then_skip. rewrite and_then_noop by reflexivity.
  rewrite (bind_ok _ _ _ _ _ (blinking_value s)). rewrite Hb. reflexivity.
Qed.

(** X17.  After a [d] that completed, the current frame is the new frame
    its reload opened; when the viewer already had as many frames as
    there are files (as after any [load_images]), that frame number is
    past the end of [file_names], and a second [d] raises: at the latest
    at [file_names[frame_number - 1]], after its own rewrite of the
    sidecar. *)
Theorem second_delete_raises secs files x y x' y' s c s1 :
  blink_on (display s) = false ->
  Z.of_nat (length files) <= fold_right Z.max 0 (frames (display s)) ->
  Main.loop_body secs files (mkResponse "d" x y) s = (Ok c, s1) ->
  frameno (display s1) = 1 + fold_right Z.max 0 (frames (display s))
  /\ frames (display s1) = frames (display s) ++ [frameno (display s1)]
  /\ raises (fst (Main.loop_body secs files (mkResponse "d" x' y') s1)).
Proof.
  intros Hb Hlen Hrun.
  rewrite (loop_body_d secs files x y s Hb) in Hrun.
  apply bind_ok_inv in Hrun as (gx & sa & Ha & Hrun).
  apply to_global_state in Ha as Hsa; subst sa.
  apply bind_ok_inv in Hrun as (gy & sb & Hgy & Hrun).
  apply to_global_state in Hgy as Hsb; subst sb.
  apply bind_ok_inv in Hrun as (u & sd & Hd & Hrun).
  pose proof (keeps_ok _ _ _ _ _ (delete_region_keeps_viewer gx gy) Hd) as Hv.
  injection Hv as Hfr Hno Hbl.
  apply bind_ok_inv in Hrun as (n & sn & Hn & Hrun).
  injection Hn as <- <-.
  apply bind_ok_inv in Hrun as (name & sn & Hname & Hrun).
  unfold lift in Hname.
  destruct (Py.index files (frameno (display sd) - 1)) as [nm|]; [|discriminate].
  injection Hname as <- <-.
  apply bind_ok_inv in Hrun as (section & sc & Hc & Hrun).
  apply current_section_state in Hc as [-> [t ->]].
  apply bind_ok_inv in Hrun as (u2 & sl & Hl & Hrun).
  injection Hrun as _ <-.
  destruct (load_image_tuple_state nm t sd) as (Hf1 & Hn1 & _ & _ & _ & Hb1 & _).
  rewrite Hl in Hf1, Hn1, Hb1. simpl in Hf1, Hn1, Hb1.
  rewrite Hfr in Hf1, Hn1. rewrite Hbl, Hb in Hb1.
  split; [exact Hn1|]. split; [rewrite Hf1, Hn1; reflexivity|].
  rewrite (loop_body_d secs files x' y' sl Hb1).
  apply raises_bind. intros gx' sa' Ha'.
  apply to_global_state in Ha' as ->.
  apply raises_bind. intros gy' sb' Hb'.
  apply to_global_state in Hb' as ->.
  apply raises_bind. intros u' sd' Hd'.
  pose proof (keeps_ok _ _ _ _ _ (delete_region_keeps_viewer gx' gy') Hd') as Hv'.
  injection Hv' as _ Hno' _.
  apply raises_bind. intros n' sn' Hn'. injection Hn' as <- <-.
  unfold bind, lift.
  rewrite index_out_of_range by (rewrite Hno', Hn1; lia).
  exists IndexError. reflexivity.
Qed.

Lemma second_delete_raises_witness :
  let s := Scenario.ready {[ "a.coo"%string := Scenario.three_points ]} in
  let s1 := snd (Main.loop_body Scenario.secs Scenario.file_names
                   (mkResponse "d" 1 1) s) in
  frameno (display s1) = 1 + fold_right Z.max 0 (frames (display s))
  /\ frames (display s1) = frames (display s) ++ [frameno (display s1)]
  /\ raises (fst (Main.loop_body Scenario.secs Scenario.file_names
                    (mkResponse "d" 1 1) s1)).
Proof.
  apply (second_delete_raises Scenario.secs Scenario.file_names 1 1 1 1
           (Scenario.ready {[ "a.coo"%string := Scenario.three_points ]})
           Fallthrough).
  - vm_compute. reflexivity.
  - vm_compute. discriminate.
  - vm_compute. reflexivity.
Defined.

Lemma prefix_app (n : string) : forall a b : string,
  String.prefix n a = true -> String.prefix n (a ++ b)%string = true.
Proof.
  induction n as [|c n IH]; intros a b H; [destruct (a ++ b)%string; reflexivity|].
  destruct a as [|c' a]; [discriminate|].
  change (String c' a ++ b)%string with (String c' (a ++ b))%string.
  simpl in *. destruct (ascii_dec c c'); [|discriminate].
  apply IH, H.
Qed.

Lemma contains_app (n a b : string) :
  Str.contains n a = true -> Str.contains n (a ++ b)%string = true.
Proof.
  induction a as [|c a IH]; intros H.
  - simpl in H. rewrite orb_false_r in H.
    destruct n; [|discriminate].
    change (""%string ++ b)%string with b. destruct b; reflexivity.
  - change (String c a ++ b)%string with (String c (a ++ b))%string.
    cbn [Str.contains] in *. apply orb_true_iff in H as [H|H].
    + change (String c (a ++ b))%string with (String c a ++ b)%string.
      rewrite (prefix_app n (String c a) b H). reflexivity.
    + rewrite (IH H). apply orb_true_r.
Qed.

(** A label whose text has the word [circle] makes the reading of the
    regions fail, wherever it stands among them. *)
Lemma parse_regions_label rs x y text :
  In (Text x y text) rs -> Str.contains "circle" text = true ->
  parse_regions rs = Raise AttributeError.
Proof.
  intros Hin Hc. induction rs as [|r rs IH]; [contradiction|].
  destruct Hin as [->|Hin].
  - simpl. rewrite Hc. reflexivity.
  - specialize (IH Hin). simpl. rewrite IH.
    destruct r as [cx cy cr cc|tx ty tt]; simpl; [reflexivity|].
    destruct (Str.contains "circle" tt); reflexivity.
Qed.

Lemma add_region_In r0 r v :
  In r0 (Viewer.current_regions v) ->
  In r0 (Viewer.current_regions (Viewer.add_region r v)).
Proof.
  intros H. unfold Viewer.current_regions, Viewer.add_region; simpl.
  rewrite lookup_insert_eq. simpl. apply in_or_app. left. exact H.
Qed.

Lemma add_region_last r v :
  In r (Viewer.current_regions (Viewer.add_region r v)).
Proof.
  unfold Viewer.current_regions, Viewer.add_region; simpl.
  rewrite lookup_insert_eq. simpl. apply in_or_app. right. left. reflexivity.
Qed.

(** [load_regions] only adds markers to the current frame. *)
Lemma load_regions_keeps_label text :
  preserves (fun st => exists x y,
               In (Text x y text) (Viewer.current_regions (display st)))
            load_regions.
Proof.
  preserve ltac:(intros ? (x0 & y0 & Hin); exists x0, y0;
                 apply add_region_In, Hin).
Qed.

(** [load_image] on a tuple section: the part that cannot fail, then the
    label and the reload of the marks. *)
Lemma load_image_tuple_split name a b c d s :
  let n := 1 + fold_right Z.max 0 (frames (display s)) in
  let cutout := ("[" ++ int_str a ++ ":" ++ int_str b ++ "," ++ int_str c
                     ++ ":" ++ int_str d ++ "]")%string in
  load_image name (SecTuple (a, b, c, d)) None s
  = (let* ysum := lift (Flt.of_int (c + d)) in
     label (b - 10) (ysum / 2)%float (name ++ cutout)%string >>
     load_regions)
      (set_sections (<[n := SecTuple (a, b, c, d)]>)
         (set_filenames (<[n := name]>)
            (set_display (Viewer.file (name ++ cutout)%string)
               (set_display Viewer.frame_new s)))).
Proof. reflexivity. Qed.

(** X18.  An image whose name contains the word [circle] can be loaded,
    but its marks cannot be read back: the label drawn by [load_image]
    carries the name, so [regions] raises an AttributeError, and
    [save_regions] raises it after having emptied the sidecar. *)
Theorem circle_in_name_breaks_regions name t s s' :
  Str.contains "circle" name = true ->
  load_image name (SecTuple t) None s = (Ok tt, s') ->
  fst (regions s') = Raise AttributeError
  /\ fst (save_regions s') = Raise AttributeError
  /\ disk (snd (save_regions s'))
       !! (fst (Str.splitext name) ++ "." ++ reg_extension)%string
     = Some ""%string.
Proof.
  intros Hc Hrun.
  destruct (load_image_tuple_state name t s)
    as (_ & Hn1 & Hnames & Hsecs & _).
  rewrite Hrun in Hn1, Hnames, Hsecs. simpl in Hn1, Hnames, Hsecs.
  destruct t as [[[a b] c] d].
  rewrite load_image_tuple_split in Hrun. cbv zeta in Hrun.
  apply bind_ok_inv in Hrun as (ysum & s0 & _ & Hrun).
  apply bind_ok_inv in Hrun as (u & sl & Hlabel & Hload).
  unfold label in Hlabel.
  apply bind_ok_inv in Hlabel as (xf & s2 & _ & Hlabel).
  injection Hlabel as _ <-.
  match type of Hload with
  | load_regions ?st = _ =>
    assert (Hin : exists x0 y0,
              In (Text x0 y0 (name ++ "[" ++ int_str a ++ ":" ++ int_str b
                                ++ "," ++ int_str c ++ ":" ++ int_str d
                                ++ "]")%string)
                 (Viewer.current_regions (display (snd (load_regions st)))))
  end.
  { apply load_regions_keeps_label.
    exists xf, (ysum / 2)%float. apply add_region_last. }
  rewrite Hload in Hin. simpl in Hin. destruct Hin as (x0 & y0 & Hin).
  assert (Hparse : parse_regions (Viewer.current_regions (display s'))
                   = Raise AttributeError).
  { eapply parse_regions_label; [exact Hin|]. apply contains_app, Hc. }
  assert (Hreg : forall st, display st = display s' ->
                 regions st = (Raise AttributeError, st)).
  { intros st Hst. unfold regions, bind, gets, lift.
    rewrite Hst, Hparse. reflexivity. }
  split; [rewrite (Hreg s' eq_refl); reflexivity|].
  assert (Hbound : filenames s' !! frameno (display s') = Some name).
  { rewrite Hnames, Hn1. apply lookup_insert_eq. }
  unfold save_regions.
  rewrite (bind_ok _ _ _ _ _ (region_filename_bound s' name Hbound)).
  set (path := (fst (Str.splitext name) ++ "." ++ reg_extension)%string).
  set (s1 := set_disk (<[path := ""%string]>) s').
  assert (Hw : File.open_write path s' = (Ok tt, s1)) by reflexivity.
  rewrite (bind_ok _ _ _ _ _ Hw).
  assert (Hf : frame_number s1 = (Ok (frameno (display s')), s1))
    by reflexivity.
  rewrite (bind_ok _ _ _ _ _ Hf).
  assert (Hg : dict_get sections (frameno (display s')) s1
               = (Ok (SecTuple (a, b, c, d)), s1)).
  { unfold dict_get, bind, gets. change (sections s1) with (sections s').
    rewrite Hsecs, Hn1, lookup_insert_eq. reflexivity. }
  rewrite (bind_ok _ _ _ _ _ Hg). cbv zeta.
  rewrite (bind_raise _ _ _ _ _ (Hreg s1 eq_refl)).
  split; [reflexivity|]. simpl. apply lookup_insert_eq.
Qed.

Lemma circle_in_name_breaks_regions_witness :
  let s' := snd (load_image "circle.fits" (SecTuple (1, 129, 1, 129)) None
                            (initial ∅)) in
  fst (regions s') = Raise AttributeError
  /\ fst (save_regions s') = Raise AttributeError
  /\ disk (snd (save_regions s'))
       !! (fst (Str.splitext "circle.fits") ++ "." ++ reg_extension)%string
     = Some ""%string.
Proof.
  apply (circle_in_name_breaks_regions "circle.fits" (1, 129, 1, 129)
           (initial ∅)); vm_compute; reflexivity.
Defined.

(** ** Waiting for a key, and the image limits *)

(** X19.  [imexam] swallows any number of ValueErrors of the viewer query
    and asks again: they change nothing in what it finally returns, and
    as long as nothing else comes back it stays in its loop. *)
Theorem imexam_retries_value_errors (n : nat) (replies : list (result string)) :
  Events.imexam (repeat (Raise ValueError) n ++ replies)
  = Events.imexam replies
  /\ Events.imexam (repeat (Raise ValueError) n) = (None, []).
Proof.
  induction n as [|n [IH1 IH2]]; simpl; auto.
Qed.

Lemma index_short {A} (l : list A) (i : nat) :
  (length l <= i)%nat -> Py.index l (Z.of_nat i) = Raise IndexError.
Proof. intros H. apply index_out_of_range. lia. Qed.

(** X20.  A reply with fewer than three fields is not asked for again:
    [imexam] leaves its loop with it and raises while reading the key or
    the coordinates (an IndexError, or the ValueError of a coordinate
    that is not a number), and the replies after it are left unread. *)
Theorem imexam_short_reply_raises text rest :
  (length (Str.split text) < 3)%nat ->
  exists e,
    Events.imexam (Ok text :: rest) = (Some (Raise e), rest)
    /\ (e = IndexError \/ e = ValueError).
Proof.
  intros Hl. simpl. unfold Events.read_response.
  destruct (Str.split text) as [|k [|sx [|sy l]]]; simpl in Hl; [| | |lia].
  - eexists; split; [reflexivity|]. auto.
  - change (Py.index [k] 0) with (Ok k).
    change (Py.index [k] 1) with (@Raise string IndexError).
    eexists; split; [reflexivity|]. auto.
  - change (Py.index [k; sx] 0) with (Ok k).
    change (Py.index [k; sx] 1) with (Ok sx).
    change (Py.index [k; sx] 2) with (@Raise string IndexError).
    cbv beta iota.
    destruct (Flt.parse sx) as [x|e] eqn:E.
    + eexists; split; [reflexivity|]. auto.
    + exists e. split; [reflexivity|].
      assert (He : forall s e0, Flt.parse s = Raise e0 -> e0 = ValueError).
      { intros s e0 Hs. unfold Flt.parse in Hs.
        destruct (Flt.take_sign s) as [neg s0].
        destruct (String.eqb (Str.lowercase s0) "inf"
                  || String.eqb (Str.lowercase s0) "infinity"); [discriminate|].
        destruct (String.eqb (Str.lowercase s0) "nan"); [discriminate|].
        destruct (Flt.take_digits s0 0 0) as [[ip icount] s1].
        destruct (match s1 with
                  | String "." s1' => Flt.take_digits s1' ip 0
                  | _ => (ip, 0, s1)
                  end) as [[mant fcount] s2].
        destruct (icount + fcount =? 0); [congruence|].
        destruct (Flt.take_exponent s2); congruence. }
      right. exact (He sx e E).
Qed.

Lemma imexam_short_reply_raises_witness :
  exists e,
    Events.imexam [Ok "a 64.5"%string; Ok "q 1 1"%string]
    = (Some (Raise e), [Ok "q 1 1"%string])
    /\ (e = IndexError \/ e = ValueError).
Proof.
  apply (imexam_short_reply_raises "a 64.5" [Ok "q 1 1"%string]).
  vm_compute. lia.
Defined.

(** X21.  [Stack.limits] reads the header once: after a call that
    returned, every later call returns the same pair, whatever the
    directory and the files have become; a call that raised (no file, no
    header field) has kept nothing, so the next call reads again. *)
Theorem limits_read_once glob header (self : Stack.t) :
  match Stack.limits glob header self with
  | (Ok l, self') =>
    Stack._limits self' = Some l
    /\ forall glob' header', Stack.limits glob' header' self' = (Ok l, self')
  | (Raise e, self') =>
    self' = self /\ Stack._limits self = None
  end.
Proof.
  unfold Stack.limits.
  destruct (Stack._limits self) as [l|] eqn:El.
  - split; [exact El|]. intros glob' header'. rewrite El. reflexivity.
  - destruct (Py.index (Stack.file_names glob self) 0) as [first|]; [|auto].
    destruct (header first "NAXIS1"%string) as [xmax|]; [|auto].
    destruct (header first "NAXIS2"%string) as [ymax|]; [|auto].
    split; reflexivity.
Qed.

(** ** Paging *)

Lemma current_section_ok secs s r s' :
  Main.current_section secs s = (Ok r, s') ->
  s' = s /\ exists t, Py.index secs (idx s) = Ok t /\ r = SecTuple t.
Proof.
  intros H. unfold Main.current_section, bind, gets, lift, ret in H.
  destruct (Py.index secs (idx s)) as [t|]; [|discriminate].
  injection H as <- <-. eauto.
Qed.

(** The statements of the [n] and [p] blocks after the index is set. *)
Lemma reload_at_index secs files s c s' :
  (clear >>
   let* section := Main.current_section secs in
   load_images files section >>
   ret Fallthrough) s = (Ok c, s') ->
  exists t,
    Py.index secs (idx s) = Ok t
    /\ idx s' = idx s
    /\ frames (display s') = map Z.of_nat (seq 1 (length files))
    /\ (forall k name, nth_error files k = Some name ->
          filenames s' !! (Z.of_nat k + 1) = Some name
          /\ sections s' !! (Z.of_nat k + 1) = Some (SecTuple t))
    /\ (forall j, Z.of_nat (length files) < j ->
          filenames s' !! j = filenames s !! j
          /\ sections s' !! j = sections s !! j).
Proof.
  intros Hrun.
  apply bind_ok_inv in Hrun as (u & sb & Hclear & Hrun).
  injection Hclear as _ <-.
  apply bind_ok_inv in Hrun as (section & sc & Hsec & Hrun).
  apply current_section_ok in Hsec as [-> (t & Ht & ->)].
  apply bind_ok_inv in Hrun as ([] & sl & Hload & Hrun).
  injection Hrun as _ <-.
  exists t. split; [exact Ht|].
  pose proof (keeps_load_images files (SecTuple t)
                (set_display Viewer.frame_delete_all s)) as Hk.
  rewrite Hload in Hk. simpl in Hk.
  split; [exact Hk|].
  destruct (load_images_bindings files t
              (set_display Viewer.frame_delete_all s) sl eq_refl Hload)
    as (Hf & Hnew & Hold & _).
  auto.
Qed.

(** X22.  After an [n] or [p] that completed, the viewer holds exactly
    the frames 1 .. len(file_names), frame k + 1 showing the k-th file at
    the section of the new tile index; the bindings of higher frame
    numbers (left by the reloads after a delete) are not cleared. *)
Theorem navigation_reloads_every_file secs files k x y s c s' :
  k = "n"%string \/ k = "p"%string ->
  Main.loop_body secs files (mkResponse k x y) s = (Ok c, s') ->
  exists t,
    Py.index secs (idx s') = Ok t
    /\ frames (display s') = map Z.of_nat (seq 1 (length files))
    /\ (forall j name, nth_error files j = Some name ->
          filenames s' !! (Z.of_nat j + 1) = Some name
          /\ sections s' !! (Z.of_nat j + 1) = Some (SecTuple t))
    /\ (forall j, Z.of_nat (length files) < j ->
          filenames s' !! j = filenames s !! j
          /\ sections s' !! j = sections s !! j).
Proof.
  intros Hk Hrun.
  assert (Hblock : exists v,
    (clear >>
     let* section := Main.current_section secs in
     load_images files section >>
     ret Fallthrough) (set_idx v s) = (Ok c, s')).
  { destruct Hk as [-> | ->];
      unfold Main.loop_body, Main.when_key in Hrun; simpl in Hrun;
      rewrite ?and_then_skip in Hrun;
      rewrite and_then_noop in Hrun by reflexivity;
      apply bind_ok_inv in Hrun as (n0 & s0 & Hget & Hrun);
      injection Hget as <- <-;
      apply bind_ok_inv in Hrun as (u & s1 & Hset & Hrun);
      injection Hset as _ <-; eauto. }
  destruct Hblock as [v Hblock].
  destruct (reload_at_index secs files _ c s' Hblock)
    as (t & Ht & Hidx & Hf & Hnew & Hold).
  exists t. rewrite Hidx. auto.
Qed.

Lemma navigation_reloads_every_file_witness :
  let s := Scenario.ready ∅ in
  let s' := snd (Main.loop_body Scenario.secs Scenario.file_names
                   (mkResponse "n" 0 0) s) in
  exists t,
    Py.index Scenario.secs (idx s') = Ok t
    /\ frames (display s') = map Z.of_nat (seq 1 (length Scenario.file_names))
    /\ (forall j name, nth_error Scenario.file_names j = Some name ->
          filenames s' !! (Z.of_nat j + 1) = Some name
          /\ sections s' !! (Z.of_nat j + 1) = Some (SecTuple t))
    /\ (forall j, Z.of_nat (length Scenario.file_names) < j ->
          filenames s' !! j = filenames s !! j
          /\ sections s' !! j = sections s !! j).
Proof.
  apply (navigation_reloads_every_file Scenario.secs Scenario.file_names
           "n" 0 0 (Scenario.ready ∅) Fallthrough).
  - left. reflexivity.
  - vm_compute. reflexivity.
Defined.

(** X23.  A start-up that completed has built the sections of the image
    with edge 128, stands on tile index 0, and shows every file, in
    order, at the first section. *)
Theorem startup_shows_first_section limits files s secs s' :
  Main.startup limits files s = (Ok secs, s') ->
  make_sections limits 128 = Ok secs
  /\ idx s' = 0
  /\ exists t,
       nth_error secs 0 = Some t
       /\ frames (display s') = map Z.of_nat (seq 1 (length files))
       /\ (forall j name, nth_error files j = Some name ->
             filenames s' !! (Z.of_nat j + 1) = Some name
             /\ sections s' !! (Z.of_nat j + 1) = Some (SecTuple t)).
Proof.
  intros Hrun. unfold Main.startup in Hrun. cbv zeta in Hrun.
  apply bind_ok_inv in Hrun as (secs0 & s0 & Hm & Hrun).
  unfold lift in Hm.
  destruct (make_sections limits 128) as [l|] eqn:Em; [|discriminate].
  injection Hm as <- <-.
  apply bind_ok_inv in Hrun as (u & s1 & _ & Hrun).
  apply bind_ok_inv in Hrun as (u0 & s2 & Hset & Hrun).
  injection Hset as _ <-.
  assert (Hblock :
    (clear >>
     let* section := Main.current_section l in
     load_images files section >>
     ret Fallthrough) (set_idx 0 s1) = (Ok Fallthrough, s')
    /\ secs = l).
  { apply bind_ok_inv in Hrun as (u1 & s3 & Hc & Hrun).
    apply bind_ok_inv in Hrun as (sec & s4 & Hsec & Hrun).
    apply bind_ok_inv in Hrun as (u2 & s5 & Hl & Hrun).
    injection Hrun as <- <-. split; [|reflexivity].
    rewrite (bind_ok _ _ _ _ _ Hc), (bind_ok _ _ _ _ _ Hsec),
      (bind_ok _ _ _ _ _ Hl). reflexivity. }
  destruct Hblock as [Hblock ->].
  destruct (reload_at_index l files _ _ s' Hblock)
    as (t & Ht & Hidx & Hf & Hnew & _).
  simpl in Hidx, Ht.
  split; [reflexivity|]. split; [exact Hidx|].
  exists t. split; [|auto].
  destruct l as [|t0 l']; [discriminate Ht|].
  unfold Py.index in Ht. cbn in Ht. injection Ht as ->. reflexivity.
Qed.

Lemma startup_shows_first_section_witness :
  let s' := snd (Main.startup (256, 256) Scenario.file_names (initial ∅)) in
  make_sections (256, 256) 128 = Ok Scenario.secs
  /\ idx s' = 0
  /\ exists t,
       nth_error Scenario.secs 0 = Some t
       /\ frames (display s')
          = map Z.of_nat (seq 1 (length Scenario.file_names))
       /\ (forall j name, nth_error Scenario.file_names j = Some name ->
             filenames s' !! (Z.of_nat j + 1) = Some name
             /\ sections s' !! (Z.of_nat j + 1) = Some (SecTuple t)).
Proof.
  apply (startup_shows_first_section (256, 256) Scenario.file_names
           (initial ∅) Scenario.secs).
  vm_compute. reflexivity.
Defined.
